(** * cmdline/help.go: the help and usage renderer

    A shallow embedding of [src/cmdline/help.go] (package [cmdline]): the
    usage renderer [usage], the recursive walker [usageAll], the dispatcher
    [runHelp], the header builder [godocHeader] and the registry of
    non-hidden global flags.

    Go strings are byte strings: [string] is a sequence of bytes and
    [String.length] is Go's [len].  The [textutil.LineWriter] the functions
    write to is an output sink outside the package; a function that writes
    to it is embedded as the sequence of calls it makes on the writer. *)

From Stdlib Require Import ZArith Ascii String List Bool Lia DecimalString.
From stdpp Require Import base strings gmap list.

Local Open Scope string_scope.
Local Open Scope list_scope.
Local Open Scope Z_scope.

(** ** Go strings *)

Module GoString.

Definition byte_of (c : ascii) : Z := Z.of_N (N_of_ascii c).
Definition of_byte (b : Z) : ascii := ascii_of_N (Z.to_N b).

(** The length of a string, in bytes, as [len(s)]. *)
Definition len (s : string) : Z := Z.of_nat (String.length s).

Definition nl : string := String (ascii_of_nat 10) EmptyString.
Definition dquote : string := String (ascii_of_nat 34) EmptyString.

(** [s[n:]] for [0 <= n <= len(s)]. *)
Fixpoint drop (n : nat) (s : string) : string :=
  match n, s with
  | O, _ => s
  | S _, EmptyString => EmptyString
  | S n', String _ s' => drop n' s'
  end.

(** [strings.HasPrefix] and [strings.TrimPrefix]. *)
Definition HasPrefix (s pre : string) : bool := String.prefix pre s.

Definition TrimPrefix (s pre : string) : string :=
  if HasPrefix s pre then drop (String.length pre) s else s.

(** [bytes.Contains]: [sub] occurs in [s]. *)
Fixpoint Contains (s sub : string) : bool :=
  String.prefix sub s
  || match s with
     | EmptyString => false
     | String _ s' => Contains s' sub
     end.

(** [strings.Repeat] of a one-byte string. *)
Fixpoint Repeat (c : string) (count : nat) : string :=
  match count with
  | O => EmptyString
  | S n => c +:+ Repeat c n
  end.

(** Operands of [fmt.Fprintln], separated by single spaces. *)
Fixpoint joinSp (l : list string) : string :=
  match l with
  | [] => EmptyString
  | [s] => s
  | s :: l' => s +:+ " " +:+ joinSp l'
  end.

End GoString.

Import GoString.

(** ** Runes: package [unicode/utf8] and [unicode.ToUpper] *)

Module Utf8.

Definition RuneError : Z := 65533.   (* U+FFFD *)
Definition MaxRune : Z := 1114111.   (* U+10FFFF *)
Definition MaxASCII : Z := 127.

Definition inRange (lo hi b : Z) : bool := (lo <=? b) && (b <=? hi).

(** The bytes at the head of [s], as far as four of them. *)
Definition head4 (s : string) : list Z :=
  match s with
  | EmptyString => []
  | String a EmptyString => [byte_of a]
  | String a (String b EmptyString) => [byte_of a; byte_of b]
  | String a (String b (String c EmptyString)) =>
      [byte_of a; byte_of b; byte_of c]
  | String a (String b (String c (String d _))) =>
      [byte_of a; byte_of b; byte_of c; byte_of d]
  end.

(** Lower and upper bound that the lead byte [b0] puts on the second
    byte (the [acceptRanges] table of the package). *)
Definition accept (b0 : Z) : Z * Z :=
  if b0 =? 224 then (160, 191)        (* E0 *)
  else if b0 =? 237 then (128, 159)   (* ED *)
  else if b0 =? 240 then (144, 191)   (* F0 *)
  else if b0 =? 244 then (128, 143)   (* F4 *)
  else (128, 191).

(** [utf8.DecodeRuneInString]: the first rune of [s] and its width in
    bytes; [(RuneError, 0)] on the empty string and [(RuneError, 1)] on
    an invalid encoding. *)
Definition DecodeRuneInString (s : string) : Z * nat :=
  match head4 s with
  | [] => (RuneError, 0%nat)
  | b0 :: rest =>
      if b0 <? 128 then (b0, 1%nat)
      else if inRange 194 223 b0 then
        match rest with
        | b1 :: _ =>
            if inRange 128 191 b1
            then (Z.lor (Z.shiftl (Z.land b0 31) 6) (Z.land b1 63), 2%nat)
            else (RuneError, 1%nat)
        | _ => (RuneError, 1%nat)
        end
      else if inRange 224 239 b0 then
        match rest with
        | b1 :: b2 :: _ =>
            let '(lo, hi) := accept b0 in
            if inRange lo hi b1 && inRange 128 191 b2
            then (Z.lor (Z.shiftl (Z.land b0 15) 12)
                    (Z.lor (Z.shiftl (Z.land b1 63) 6) (Z.land b2 63)),
                  3%nat)
            else (RuneError, 1%nat)
        | _ => (RuneError, 1%nat)
        end
      else if inRange 240 244 b0 then
        match rest with
        | b1 :: b2 :: b3 :: _ =>
            let '(lo, hi) := accept b0 in
            if inRange lo hi b1 && inRange 128 191 b2 && inRange 128 191 b3
            then (Z.lor (Z.shiftl (Z.land b0 7) 18)
                    (Z.lor (Z.shiftl (Z.land b1 63) 12)
                       (Z.lor (Z.shiftl (Z.land b2 63) 6) (Z.land b3 63))),
                  4%nat)
            else (RuneError, 1%nat)
        | _ => (RuneError, 1%nat)
        end
      else (RuneError, 1%nat)
  end.

Definition bytes (l : list Z) : string :=
  fold_right (fun b s => String (of_byte b) s) EmptyString l.

Definition cont (r : Z) (shift : Z) : Z :=
  Z.lor 128 (Z.land (Z.shiftr r shift) 63).

(** The conversion [string(r)] of a rune: its UTF-8 encoding, and the
    encoding of [RuneError] for a rune that is out of range or a
    surrogate. *)
Definition encode (r : Z) : string :=
  if (0 <=? r) && (r <=? MaxASCII) then bytes [r]
  else if (128 <=? r) && (r <=? 2047) then
    bytes [Z.lor 192 (Z.shiftr r 6); cont r 0]
  else if (r <? 0) || (MaxRune <? r) || inRange 55296 57343 r then
    bytes [239; 191; 189]
  else if r <=? 65535 then
    bytes [Z.lor 224 (Z.shiftr r 12); cont r 6; cont r 0]
  else
    bytes [Z.lor 240 (Z.shiftr r 18); cont r 12; cont r 6; cont r 0].

(** [utf8.RuneCountInString]; every step consumes at least one byte, so
    the length of the string is fuel enough. *)
Fixpoint runeCount (fuel : nat) (s : string) : nat :=
  match fuel with
  | O => O
  | S fuel' =>
      match s with
      | EmptyString => O
      | _ => S (runeCount fuel' (drop (snd (DecodeRuneInString s)) s))
      end
  end.

Definition RuneCountInString (s : string) : nat :=
  runeCount (String.length s) s.

End Utf8.

(** ** The data model *)

(** [type style int], with the tokens its [String] method prints. *)
Inductive style := styleCompact | styleFull | styleGoDoc | styleShort.

(** Modelled from the spec: the [String] method of [style] is declared in
    another file of the package; the style tokens are
    [compact|full|godoc|short]. *)
Definition styleString (s : style) : string :=
  match s with
  | styleCompact => "compact"
  | styleFull => "full"
  | styleGoDoc => "godoc"
  | styleShort => "short"
  end.

Definition style_eqb (a b : style) : bool :=
  match a, b with
  | styleCompact, styleCompact | styleFull, styleFull
  | styleGoDoc, styleGoDoc | styleShort, styleShort => true
  | _, _ => false
  end.

(** A [flag.Flag]; [Value] is the text [f.Value.String()] prints. *)
Module Flag.
Record t := mk { Name : string; Usage : string; Value : string; DefValue : string }.
End Flag.

(** A [flag.FlagSet], as the sequence of flags [VisitAll] goes through. *)
Definition FlagSet := list Flag.t.

Module Topic.
Record t := mk { Name : string; Short : string; Long : string }.
End Topic.

(** Only whether [Runner] is nil matters to the renderer. *)
Inductive Runner := AppRunner | HelpRunner.

#[warnings="-register-all"]
Inductive Command := mkCommand {
  Name : string;
  Short : string;
  Long : string;
  Flags : FlagSet;
  ArgsName : string;
  ArgsLong : string;
  Children : list Command;
  Topics : list Topic.t;
  LookPath : bool;
  RunnerOf : option Runner
}.

(** [rootPath] "must not be empty": a path is kept as the commands above
    the target and the target itself, [path[len(path)-1]]. *)
Record Path := mkPath { above : list Command; target : Command }.

Definition commands (p : Path) : list Command := above p ++ [target p].

(** [append(path, c)] *)
Definition extend (p : Path) (c : Command) : Path := mkPath (commands p) c.

(** [path[:len(path)-1]], for a path with more than one command. *)
Definition parentOf (p : Path) : list Command := above p.

(** The environment of a run; [Stdout] and [Stderr] are left to the
    output the functions return. *)
Record Env := mkEnv { Vars : gmap string string }.

Record helpConfig := mkConfig { env : Env; cfgStyle : style; width : Z }.

Inductive error :=
| ErrUsage (msg : string)
| ErrExitCode (code : Z)
| ErrExec (msg : string).

Inductive Stream := Stdout | Stderr.

(** What a run of an external binary did: the chunks it wrote, in order
    and each on its stream, and the error [Run] returned. *)
Record ProcResult := mkProc {
  written : list (Stream * string);
  status : option error
}.

(** The content of a buffer that received both streams. *)
Definition captured (r : ProcResult) : string :=
  fold_right (fun c acc => snd c +:+ acc) "" (written r).

(** ** What the file takes from the rest of the package and from Go *)

Class Host := {
  (** package [unicode]: the case tables behind [ToUpper] *)
  caseTableUpper : Z -> Z;
  (** package [go/doc]: [ToHTML] *)
  docToHTML : string -> string;
  (** package [fmt]: the verb [%q] on a string *)
  quoted : string -> string;
  (** package [regexp] *)
  Regexp : Type;
  MatchString : Regexp -> string -> bool;
  (** [defaultWidth], the width of a line break when the width is
      unlimited *)
  defaultWidth : Z;
  (** [pathName(prefix, path)] *)
  pathName : string -> list Command -> string;
  (** [env.prefix()], [env.pathDirs()], [env.firstCall()] *)
  prefix : Env -> string;
  pathDirs : Env -> list string;
  firstCall : Env -> bool;
  (** [lookPath(name, dirs)] and [lookPathAll(prefix, dirs, names)] *)
  lookPath : string -> list string -> bool;
  lookPathAll : string -> list string -> list string -> list string;
  (** [binaryRunner{subCmd, cmdPath}.Run(env, args)] *)
  binaryRun : string -> string -> Env -> list string -> ProcResult;
  (** [cleanTree(cmd)] *)
  cleanTree : Command -> Command
}.

(** ** The writer *)

(** The calls made on a [*textutil.LineWriter]. *)
Inductive WOp :=
| Write (s : string)
| Flush
| SetIndents (indents : list string)
| ForceVerbatim (v : bool).

(** [fmt.Fprintln(w, l...)] *)
Definition Fprintln (l : list string) : WOp := Write (joinSp l +:+ nl).

Definition spaces (count : Z) : string := Repeat " " (Z.to_nat count).

(** [fmt.Sprintf("%-[1]*[2]s", w, s)]: [s] padded on its right with spaces
    to [w] runes. *)
Definition padRight (w : Z) (s : string) : string :=
  s +:+ Repeat " " (Z.to_nat w - Utf8.RuneCountInString s).

Definition missingDescription : string := "No description available".
Definition helpName : string := "help".
Definition minNameWidth : Z := 11.

(** [strconv.Itoa], which prints the value of an [int] flag. *)
Definition Itoa (n : Z) : string :=
  DecimalString.NilEmpty.string_of_int (Z.to_int n).

Section Help.

Context `{Host}.

(** *** Headers *)

(** [unicode.ToUpper]: an ASCII rune by arithmetic, any other rune
    through the case tables. *)
Definition ToUpper (r : Z) : Z :=
  if r <=? Utf8.MaxASCII then
    if (97 <=? r) && (r <=? 122) then r - 32 else r
  else caseTableUpper r.

Definition firstRuneToUpper (s : string) : string :=
  if String.eqb s "" then ""
  else
    let '(r, n) := Utf8.DecodeRuneInString s in
    Utf8.encode (ToUpper r) +:+ drop n s.

(** The test [godocHeader] makes on a candidate header: godoc extracts a
    header from the line when the HTML of the probe text holds the start
    of a heading tag. *)
Definition godocExtractsHeader (header : string) : bool :=
  Contains
    (docToHTML ("before" +:+ nl +:+ nl +:+ header +:+ nl +:+ nl +:+ "after"))
    "<h".

Definition godocHeader (path short : string) : string :=
  if String.eqb path "" then firstRuneToUpper short
  else if String.eqb short "" then firstRuneToUpper path
  else
    let header := firstRuneToUpper (path +:+ " - " +:+ short) in
    if negb (godocExtractsHeader header) then firstRuneToUpper path
    else header.

Definition lineBreak (wWidth : Z) (st : style) : list WOp :=
  [Flush]
  ++ match st with
     | styleCompact | styleFull =>
         let width := if wWidth <? 0 then defaultWidth else wWidth in
         [Fprintln [Repeat "=" (Z.to_nat width)]]
     | styleGoDoc => [Fprintln []]
     | styleShort => []
     end
  ++ [Flush].

(** *** Flags *)

Definition matchRegexps (regexps : option (list Regexp)) (name : string)
  : bool :=
  match regexps with
  | None => true
  | Some rs => existsb (fun r => MatchString r name) rs
  end.

Definition countFlags (flags : FlagSet) (regexps : option (list Regexp))
    (matching : bool) : Z :=
  fold_left
    (fun num f =>
       if Bool.eqb matching (matchRegexps regexps (Flag.Name f))
       then num + 1 else num)
    flags 0.

Definition printFlag (st : style) (f : Flag.t) : list WOp :=
  let value :=
    if style_eqb st styleGoDoc then Flag.DefValue f else Flag.Value f in
  [ Write (" -" +:+ Flag.Name f +:+ "=" +:+ value);
    SetIndents [spaces 3];
    Fprintln [Flag.Usage f];
    SetIndents [] ].

Definition printFlags (flags : FlagSet) (st : style)
    (regexps : option (list Regexp)) (matching : bool) : list WOp :=
  flat_map
    (fun f =>
       if negb (Bool.eqb matching (matchRegexps regexps (Flag.Name f)))
       then [] else printFlag st f)
    flags.

(** The package variables [globalFlags] and [nonHiddenGlobalFlags]; a
    nil slice is [None]. *)
Record Globals := mkGlobals {
  globalFlags : FlagSet;
  nonHiddenGlobalFlags : option (list Regexp)
}.

(** [append(s, xs...)]: nil stays nil when nothing is appended. *)
Definition goAppend {A} (s : option (list A)) (xs : list A)
  : option (list A) :=
  match s, xs with
  | None, [] => None
  | None, _ :: _ => Some xs
  | Some l, _ => Some (l ++ xs)
  end.

Definition HideGlobalFlagsExcept (regexps : list Regexp) (g : Globals)
  : Globals :=
  let nh := goAppend (nonHiddenGlobalFlags g) regexps in
  mkGlobals (globalFlags g)
    (match nh with
     | None => Some []
     | Some _ => nh
     end).

(** *** The help command *)

Definition helpLong : string :=
  nl +:+ "Help with no args displays the usage of the parent command." +:+ nl
  +:+ nl
  +:+ "Help with args displays the usage of the specified sub-command or help topic."
  +:+ nl +:+ nl +:+ dquote +:+ "help ..." +:+ dquote
  +:+ " recursively displays help for all commands and topics." +:+ nl.

Definition helpArgsLong : string :=
  nl
  +:+ "[command/topic ...] optionally identifies a specific sub-command or help topic."
  +:+ nl.

Definition styleUsage : string :=
  nl +:+ "The formatting style for help output:" +:+ nl
  +:+ "   compact - Good for compact cmdline output." +:+ nl
  +:+ "   full    - Good for cmdline output, shows all global flags." +:+ nl
  +:+ "   godoc   - Good for godoc processing." +:+ nl
  +:+ "Override the default by setting the CMDLINE_STYLE environment variable."
  +:+ nl.

Definition widthUsage : string :=
  nl
  +:+ "Format output to this target width in runes, or unlimited if width < 0."
  +:+ nl
  +:+ "Defaults to the terminal width if available.  Override the default by setting"
  +:+ nl +:+ "the CMDLINE_WIDTH environment variable." +:+ nl.

(** [helpRunner{path, config}.newCommand()] *)
Definition newCommand (path : Path) (config : helpConfig) : Command :=
  cleanTree
    {| Name := helpName;
       Short := "Display help for commands or topics";
       Long := helpLong;
       Flags :=
         [ Flag.mk "style" styleUsage (styleString (cfgStyle config))
             "compact";
           Flag.mk "width" widthUsage (Itoa (width config))
             "<terminal width>" ];
       ArgsName := "[command/topic ...]";
       ArgsLong := helpArgsLong;
       Children := [];
       Topics := [];
       LookPath := false;
       RunnerOf := Some HelpRunner |}.

Definition needsHelpChild (cmd : Command) : bool :=
  if existsb (fun child => String.eqb (Name child) helpName) (Children cmd)
  then false
  else Z.of_nat (length (Children cmd)) >? 0.

(** *** Usage of one command *)

(** Modelled from the spec: the method [subNames] of [Command] is
    declared in another file of the package; it gives the names of the
    declared built-in children, which [lookPathAll] leaves out. *)
Definition subNames (cmd : Command) : list string :=
  map Name (Children cmd).

(** The reminder [fullhelp] of the compact style. *)
Definition fullhelp (path : Path) (config : helpConfig) : string :=
  let cmd := target path in
  let cmdPath := pathName (prefix (env config)) (commands path) in
  if Z.of_nat (length (Children cmd)) =? 0 then
    if Z.of_nat (length (commands path)) >? 1 then
      let parentPath := pathName (prefix (env config)) (parentOf path) in
      "Run " +:+ dquote +:+ parentPath +:+ " help -style=full "
      +:+ Name cmd +:+ dquote +:+ " to show all global flags."
    else
      "Run " +:+ dquote +:+ "CMDLINE_STYLE=full " +:+ cmdPath
      +:+ " -help" +:+ dquote +:+ " to show all global flags."
  else
    "Run " +:+ dquote +:+ cmdPath +:+ " help -style=full" +:+ dquote
    +:+ " to show all global flags.".

(** The part of [flagsUsage] on the flags of the command. *)
Definition commandFlagsUsage (path : Path) (config : helpConfig)
  : list WOp :=
  let cmd := target path in
  let cmdPath := pathName (prefix (env config)) (commands path) in
  if countFlags (Flags cmd) None true >? 0 then
    [Fprintln []; Fprintln ["The"; cmdPath; "flags are:"]]
    ++ printFlags (Flags cmd) (cfgStyle config) None true
  else [].

(** The part of [flagsUsage] on the global flags, which a first call
    reaches. *)
Definition globalFlagsUsage (path : Path) (config : helpConfig)
    (g : Globals) : list WOp :=
  let nh := nonHiddenGlobalFlags g in
  let hasCompact := countFlags (globalFlags g) nh true >? 0 in
  let hasFull := countFlags (globalFlags g) nh false >? 0 in
  if negb (style_eqb (cfgStyle config) styleCompact) then
    if hasCompact || hasFull then
      [Fprintln []; Fprintln ["The global flags are:"]]
      ++ printFlags (globalFlags g) (cfgStyle config) nh true
      ++ (if hasCompact && hasFull then [Fprintln []] else [])
      ++ printFlags (globalFlags g) (cfgStyle config) nh false
    else []
  else
    (if hasCompact then
       [Fprintln []; Fprintln ["The global flags are:"]]
       ++ printFlags (globalFlags g) (cfgStyle config) nh true
     else [])
    ++ (if hasFull then [Fprintln []; Fprintln [fullhelp path config]]
        else []).

Definition flagsUsage (path : Path) (config : helpConfig) (first : bool)
    (g : Globals) : list WOp :=
  commandFlagsUsage path config
  ++ (if negb first then [] else globalFlagsUsage path config g).

(** The closure [printShort] of [usage]: one row of a table. *)
Definition printShort (nameWidth : Z) (name short : string) : list WOp :=
  [Write (padRight nameWidth name +:+ " " +:+ short); Flush].

(** The binaries of the search path that extend [cmd]. *)
Definition binarySubCmds (cmd : Command) (config : helpConfig)
  : list string :=
  if LookPath cmd
  then lookPathAll (Name cmd) (pathDirs (env config)) (subNames cmd)
  else [].

(** The name under which the binary [subCmd] is listed. *)
Definition shownName (cmd : Command) (subCmd : string) : string :=
  TrimPrefix subCmd (Name cmd +:+ "-").

(** The name width of the table of sub-commands. *)
Definition commandNameWidth (cmd : Command) (subCmds : list string) : Z :=
  let nameWidth := minNameWidth in
  let nameWidth :=
    fold_left
      (fun nameWidth child =>
         if len (Name child) >? nameWidth then len (Name child)
         else nameWidth)
      (Children cmd) nameWidth in
  fold_left
    (fun nameWidth subCmd =>
       let length := len (shownName cmd subCmd) in
       if length >? nameWidth then length else nameWidth)
    subCmds nameWidth.

(** The name width of the table of topics. *)
Definition topicNameWidth (cmd : Command) : Z :=
  fold_left
    (fun nameWidth topic =>
       if len (Topic.Name topic) >? nameWidth then len (Topic.Name topic)
       else nameWidth)
    (Topics cmd) minNameWidth.

(** The environment of the run that asks a binary for its description:
    a clone of [config.env] with [CMDLINE_STYLE] set to [short]. *)
Definition shortEnv (config : helpConfig) : Env :=
  mkEnv (<["CMDLINE_STYLE" := "short"]> (Vars (env config))).

(** The description shown for the binary [subCmd]: the content of the
    buffer that received its output, or [missingDescription] when the
    run failed. *)
Definition binaryShort (cmdPath : string) (config : helpConfig)
    (subCmd : string) : string :=
  let r := binaryRun subCmd cmdPath (shortEnv config) ["-help"] in
  match status r with
  | None => captured r
  | Some _ => missingDescription
  end.

(** The rows of the table of sub-commands, in the order they are
    printed: built-in children, binaries, the default help command. *)
Definition commandRows (path : Path) (config : helpConfig) (first : bool)
  : list (string * string) :=
  let cmd := target path in
  let cmdPath := pathName (prefix (env config)) (commands path) in
  map (fun child => (Name child, Short child)) (Children cmd)
  ++ map (fun subCmd => (shownName cmd subCmd, binaryShort cmdPath config subCmd))
       (binarySubCmds cmd config)
  ++ (if first && needsHelpChild cmd then
        let help := newCommand path config in [(Name help, Short help)]
      else []).

Definition topicRows (cmd : Command) : list (string * string) :=
  map (fun topic => (Topic.Name topic, Topic.Short topic)) (Topics cmd).

(** The invocation prefix [cmdPathF] of the block [Usage:]. *)
Definition cmdPathF (path : Path) (config : helpConfig) : string :=
  let cmdPath := pathName (prefix (env config)) (commands path) in
  "   " +:+ cmdPath
  +:+ (if countFlags (Flags (target path)) None true >? 0 then " [flags]"
       else "").

Definition hasSubcommands (cmd : Command) (config : helpConfig) : bool :=
  (Z.of_nat (length (binarySubCmds cmd config)) >? 0)
  || (Z.of_nat (length (Children cmd)) >? 0).

(** The lines of the block [Usage:] below its title. *)
Definition usageLines (path : Path) (config : helpConfig) : list WOp :=
  let cmd := target path in
  (match RunnerOf cmd with
   | Some _ =>
       if negb (String.eqb (ArgsName cmd) "")
       then [Fprintln [cmdPathF path config; ArgsName cmd]]
       else [Fprintln [cmdPathF path config]]
   | None => []
   end)
  ++ (if hasSubcommands cmd config
      then [Fprintln [cmdPathF path config; "<command>"]] else []).

Definition commandTable (path : Path) (config : helpConfig) (first : bool)
  : list WOp :=
  let cmd := target path in
  let cmdPath := pathName (prefix (env config)) (commands path) in
  let nameWidth := commandNameWidth cmd (binarySubCmds cmd config) in
  (if hasSubcommands cmd config then
     [ Fprintln []; Fprintln ["The"; cmdPath; "commands are:"];
       SetIndents [spaces 3; spaces (3 + nameWidth + 1)] ]
   else [])
  ++ flat_map (fun row => printShort nameWidth (fst row) (snd row))
       (commandRows path config first)
  ++ (if hasSubcommands cmd config then
        SetIndents []
        :: (if first && negb (style_eqb (cfgStyle config) styleGoDoc) then
              [Write ("Run " +:+ dquote +:+ cmdPath +:+ " help [command]"
                      +:+ dquote +:+ " for command usage." +:+ nl)]
            else [])
      else []).

Definition argsSection (cmd : Command) : list WOp :=
  match RunnerOf cmd with
  | Some _ =>
      if negb (String.eqb (ArgsLong cmd) "")
      then [Fprintln []; Fprintln [ArgsLong cmd]] else []
  | None => []
  end.

Definition topicTable (path : Path) (config : helpConfig) (first : bool)
  : list WOp :=
  let cmd := target path in
  let cmdPath := pathName (prefix (env config)) (commands path) in
  if Z.of_nat (length (Topics cmd)) >? 0 then
    let nameWidth := topicNameWidth cmd in
    [ Fprintln []; Fprintln ["The"; cmdPath; "additional help topics are:"];
      SetIndents [spaces 3; spaces (3 + nameWidth + 1)] ]
    ++ flat_map (fun row => printShort nameWidth (fst row) (snd row))
         (topicRows cmd)
    ++ SetIndents []
       :: (if first && negb (style_eqb (cfgStyle config) styleGoDoc) then
             [Write ("Run " +:+ dquote +:+ cmdPath +:+ " help [topic]"
                     +:+ dquote +:+ " for topic details." +:+ nl)]
           else [])
  else [].

(** The separator and header of a command that is not the first one
    printed. *)
Definition sectionHeader (wWidth : Z) (st : style) (header : string)
  : list WOp :=
  lineBreak wWidth st
  ++ [ForceVerbatim true; Fprintln [header]; ForceVerbatim false].

Definition usage (wWidth : Z) (path : Path) (config : helpConfig)
    (first : bool) (g : Globals) : list WOp :=
  let cmd := target path in
  let cmdPath := pathName (prefix (env config)) (commands path) in
  if style_eqb (cfgStyle config) styleShort then [Fprintln [Short cmd]]
  else
    (if negb first then
       sectionHeader wWidth (cfgStyle config) (godocHeader cmdPath (Short cmd))
       ++ [Fprintln []]
     else [])
    ++ [Fprintln [Long cmd]; Fprintln []; Fprintln ["Usage:"]]
    ++ usageLines path config
    ++ commandTable path config first
    ++ argsSection cmd
    ++ topicTable path config first
    ++ flagsUsage path config first g.

(** *** Usage of a whole tree *)

(** The environment of the runs that ask a binary for its full usage. *)
Definition dumpEnv (config : helpConfig) : Env :=
  mkEnv (<["CMDLINE_STYLE" := styleString (cfgStyle config)]>
           (<["CMDLINE_FIRST_CALL" := "1"]> (Vars (env config)))).

(** What [usageAll] prints for the binary [subCmd]. *)
Definition binaryUsage (wWidth : Z) (cmd : Command) (cmdPath : string)
    (config : helpConfig) (subCmd : string) : list WOp :=
  let leading :=
    if style_eqb (cfgStyle config) styleGoDoc then [Fprintln []] else [] in
  let r := binaryRun subCmd cmdPath (dumpEnv config) [helpName; "..."] in
  match status r with
  | None => leading ++ [Write (captured r)]
  | Some _ =>
      let r' := binaryRun subCmd cmdPath (dumpEnv config) ["-help"] in
      match status r' with
      | None => leading ++ [Write (captured r')]
      | Some _ =>
          lineBreak wWidth (cfgStyle config)
          ++ [Fprintln [godocHeader (cmdPath +:+ " " +:+ shownName cmd subCmd)
                          missingDescription]]
      end
  end.

Definition topicUsage (wWidth : Z) (cmdPath : string) (config : helpConfig)
    (topic : Topic.t) : list WOp :=
  sectionHeader wWidth (cfgStyle config)
    (godocHeader (cmdPath +:+ " " +:+ Topic.Name topic) (Topic.Short topic))
  ++ [Fprintln []; Fprintln [Topic.Long topic]].

(** [usageAll]; the recursion goes down the tree and once into the help
    command, and [fuel] bounds its depth: [None] is a run out of fuel. *)
Fixpoint usageAll (fuel : nat) (wWidth : Z) (path : Path)
    (config : helpConfig) (first : bool) (g : Globals)
  : option (list WOp) :=
  match fuel with
  | O => None
  | S fuel' =>
      let cmd := target path in
      let cmdPath := pathName (prefix (env config)) (commands path) in
      children ←
        mapM (fun child => usageAll fuel' wWidth (extend path child) config false g)
          (Children cmd);
      help ←
        (if first && needsHelpChild cmd then
           usageAll fuel' wWidth (extend path (newCommand path config))
             config false g
         else Some []);
      Some
        (usage wWidth path config first g
         ++ concat children
         ++ flat_map (binaryUsage wWidth cmd cmdPath config)
              (binarySubCmds cmd config)
         ++ help
         ++ flat_map (topicUsage wWidth cmdPath config) (Topics cmd))
  end.

(** *** The help command at run time *)

(** What a run of the help command does besides returning. *)
Inductive Event :=
| OnWriter (op : WOp)                (* a call on [w] *)
| OnStderr (s : string)              (* bytes written on [stderr] *)
| OnStderrWriter (op : WOp)          (* a call on a writer opened on [stderr] *)
| FromChild (s : Stream) (chunk : string).
                   (* bytes a child wrote on a stream of the environment *)

(** [helpRunner{path, config}.usageFunc(writer)], with its calls on the
    line writer it opens on [writer]. *)
Definition usageFunc (path : Path) (config : helpConfig) (g : Globals)
  : list WOp :=
  usage (width config) path config (firstCall (env config)) g ++ [Flush].

(** Modelled from the spec: [usageErrorf] is declared in another file of
    the package.  The error message is written through the sink used for
    reporting, the usage function it is paired with is run on that sink,
    and the call fails with the error of that message. *)
Definition usageErrorf (fn : list WOp) (msg : string)
  : list Event * option error :=
  (OnStderr msg :: map OnStderrWriter fn, Some (ErrUsage msg)).

(** The environment of the run that hands a help request to a binary. *)
Definition delegateEnv (config : helpConfig) : Env :=
  mkEnv (<["CMDLINE_STYLE" := styleString (cfgStyle config)]>
           (Vars (env config))).

Definition delegateArgs (subArgs : list string) : list string :=
  if Z.of_nat (length subArgs) =? 0 then ["-help"] else helpName :: subArgs.

Definition unknownMessage (cmdPath subName : string) : string :=
  cmdPath +:+ ": unknown command or topic " +:+ quoted subName.

Fixpoint runHelp (fuel : nat) (wWidth : Z) (args : list string) (path : Path)
    (config : helpConfig) (g : Globals) {struct args}
  : option (list Event * option error) :=
  match args with
  | [] =>
      Some (map OnWriter (usage wWidth path config (firstCall (env config)) g),
            None)
  | subName :: subArgs =>
      if String.eqb subName "..." then
        ops ← usageAll fuel wWidth path config (firstCall (env config)) g;
        Some (map OnWriter ops, None)
      else
        let cmd := target path in
        match List.find (fun child => String.eqb (Name child) subName)
                (Children cmd) with
        | Some child => runHelp fuel wWidth subArgs (extend path child) config g
        | None =>
            if String.eqb helpName subName then
              runHelp fuel wWidth subArgs
                (extend path (newCommand path config)) config g
            else
              let subCmd := Name cmd +:+ "-" +:+ subName in
              if LookPath cmd && lookPath subCmd (pathDirs (env config)) then
                let r :=
                  binaryRun subCmd
                    (pathName (prefix (env config)) (commands path))
                    (delegateEnv config) (delegateArgs subArgs) in
                Some (map (fun c => FromChild (fst c) (snd c)) (written r),
                      status r)
              else
                match List.find
                        (fun topic => String.eqb (Topic.Name topic) subName)
                        (Topics cmd) with
                | Some topic =>
                    Some ([OnWriter (Fprintln [Topic.Long topic])], None)
                | None =>
                    Some (usageErrorf (usageFunc path config g)
                            (unknownMessage
                               (pathName (prefix (env config)) (commands path))
                               subName))
                end
        end
  end.

End Help.

(** ** Measures used to state the properties *)

(** The number of levels of the tree below and including a command. *)
Fixpoint depth (c : Command) : nat :=
  S (fold_right (fun child acc => Nat.max (depth child) acc) O (Children c)).

(** The length of the longest of [names], in bytes. *)
Definition longest (names : list string) : Z :=
  fold_right (fun name acc => Z.max (len name) acc) 0 names.

(** The first line of a text, in the words of the specification: the bytes
    before its first line terminator. *)
Fixpoint firstLine (s : string) : string :=
  match s with
  | EmptyString => EmptyString
  | String c s' =>
      if Ascii.eqb c (ascii_of_nat 10) then EmptyString
      else String c (firstLine s')
  end.

(** Whether any command of a path has a flag, the condition the
    specification puts on the token [[flags]]. *)
Definition anyHasFlags `{Host} (path : Path) : bool :=
  existsb (fun c => countFlags (Flags c) None true >? 0) (commands path).

(** The flags that [countFlags] counts and [printFlags] prints. *)
Definition selects `{Host} (regexps : option (list Regexp)) (matching : bool)
    (f : Flag.t) : bool :=
  Bool.eqb matching (matchRegexps regexps (Flag.Name f)).

(** The flags whose name some regexp of [rs] matches, and the others. *)
Definition shownFlags `{Host} (rs : list Regexp) (flags : FlagSet) : FlagSet :=
  List.filter (fun f => existsb (fun r => MatchString r (Flag.Name f)) rs) flags.

Definition hiddenFlags `{Host} (rs : list Regexp) (flags : FlagSet) : FlagSet :=
  List.filter
    (fun f => negb (existsb (fun r => MatchString r (Flag.Name f)) rs)) flags.

(** The calls of [HideGlobalFlagsExcept] made one after the other. *)
Definition hideAll `{Host} (calls : list (list Regexp)) (g : Globals)
  : Globals :=
  fold_left (fun g regexps => HideGlobalFlagsExcept regexps g) calls g.

(** ** A host and a tree to run the functions on *)

Definition demoPathName (pre : string) (path : list Command) : string :=
  fold_left
    (fun name cmd =>
       (if String.eqb name "" then name else name +:+ " ") +:+ Name cmd)
    path pre.

Definition demoPrefix (e : Env) : string :=
  default "" (Vars e !! "CMDLINE_PREFIX").

(** The only binary of the demo search path is [root-extra].  It answers
    [-help] with two lines, fails on [help ...] and passes any other
    request on with exit code 2. *)
Definition demoRun (subCmd cmdPath : string) (e : Env) (args : list string)
  : ProcResult :=
  match args with
  | ["-help"] =>
      mkProc [(Stdout, "Extra tool" +:+ nl +:+ "More about it" +:+ nl)] None
  | ["help"; "..."] => mkProc [(Stderr, "no help" +:+ nl)] (Some (ErrExitCode 1))
  | _ => mkProc [(Stdout, "extra: " +:+ joinSp args +:+ nl)] (Some (ErrExitCode 2))
  end.

Definition demoHost : Host :=
  {| caseTableUpper := fun r => r;
     docToHTML := fun text => if Contains text "," then "<p>" else "<h3>";
     quoted := fun s => dquote +:+ s +:+ dquote;
     Regexp := string;
     MatchString := fun r name => Contains name r;
     defaultWidth := 80;
     pathName := demoPathName;
     prefix := demoPrefix;
     pathDirs := fun _ => ["/bin"];
     firstCall := fun _ => true;
     lookPath := fun name _ => String.eqb name "root-extra";
     lookPathAll :=
       fun pre _ _ => if String.eqb pre "root" then ["root-extra"] else [];
     binaryRun := demoRun;
     cleanTree := fun c => c |}.

Definition leaf (name short : string) (flags : FlagSet) : Command :=
  {| Name := name; Short := short; Long := short +:+ ", at length.";
     Flags := flags; ArgsName := ""; ArgsLong := "";
     Children := []; Topics := []; LookPath := false;
     RunnerOf := Some AppRunner |}.

Definition demoFlag : Flag.t := Flag.mk "v" "verbose output" "true" "false".

Definition demoTopic : Topic.t :=
  Topic.mk "syntax" "The syntax of build files" "Build files are lists.".

(** A root with one built-in child, one topic and external search. *)
Definition demoRoot : Command :=
  {| Name := "root"; Short := "The root"; Long := "The root, at length.";
     Flags := [demoFlag]; ArgsName := ""; ArgsLong := "";
     Children := [leaf "build" "Build things" []]; Topics := [demoTopic];
     LookPath := true; RunnerOf := None |}.

(** A root with external search and no built-in child. *)
Definition demoLookOnly : Command :=
  {| Name := "root"; Short := "The root"; Long := "The root, at length.";
     Flags := []; ArgsName := ""; ArgsLong := "";
     Children := []; Topics := []; LookPath := true; RunnerOf := None |}.

Definition demoConfig (st : style) : helpConfig := mkConfig (mkEnv ∅) st 80.

Definition demoGlobals : @Globals demoHost :=
  @mkGlobals demoHost
    [Flag.mk "log" "log file" "/tmp/log" "$TMP/log";
     Flag.mk "trace" "trace calls" "false" "false"]
    None.

Definition demoPath : Path := mkPath [] demoRoot.

Definition demoLookOnlyPath : Path := mkPath [] demoLookOnly.

(** The child [build], which has no flag, below the root, which has one. *)
Definition demoChildPath : Path := mkPath [demoRoot] (leaf "build" "Build things" []).


Definition demoCompact : helpConfig := demoConfig styleCompact.



(** The answer of [root-extra] to the request for its short description. *)
Definition demoShortAnswer : ProcResult :=
  @binaryRun demoHost "root-extra" "root" (shortEnv demoCompact)
    ["-help"].

(** ** The rest of the help command *)

(** [helpRunner.Run(env, args)]: the writer is opened on the standard
    output with the width of the configuration, and its deferred [Flush]
    comes after whatever [runHelp] did. *)
Definition helpRunnerRun `{Host} (fuel : nat) (path : Path)
    (config : helpConfig) (args : list string) (g : Globals)
  : option (list Event * option error) :=
  r ← runHelp fuel (width config) args path config g;
  Some (fst r ++ [OnWriter Flush], snd r).

(** The path that a list of segments leads to when each of them is the
    name of a built-in child of the command before it: the first child of
    that name, as the loop of [runHelp] finds it. *)
Fixpoint walk (path : Path) (names : list string) : option Path :=
  match names with
  | [] => Some path
  | name :: names' =>
      if String.eqb name "..." then None
      else
        match List.find (fun child => String.eqb (Name child) name)
                (Children (target path)) with
        | Some child => walk (extend path child) names'
        | None => None
        end
  end.

(** The paths below a path in the tree of built-in children. *)
Inductive descends (path : Path) : Path -> Prop :=
| descends_child (child : Command) :
    In child (Children (target path)) -> descends path (extend path child)
| descends_below (mid : Path) (child : Command) :
    descends path mid -> In child (Children (target mid)) ->
    descends path (extend mid child).

(** The kinds of event of a run of the help command. *)
Definition onWriter (ev : Event) : bool :=
  match ev with OnWriter _ => true | _ => false end.

Definition fromChild (ev : Event) : bool :=
  match ev with FromChild _ _ => true | _ => false end.

(** A string of ASCII bytes. *)
Fixpoint isASCII (s : string) : bool :=
  match s with
  | EmptyString => true
  | String c s' => (byte_of c <? 128) && isASCII s'
  end.

(** The first byte of a string is an ASCII byte. *)
Definition startsASCII (s : string) : bool :=
  match s with
  | EmptyString => false
  | String c _ => byte_of c <? 128
  end.

(** Two flags that differ at most in their current value. *)
Definition sameButValue (f f' : Flag.t) : Prop :=
  Flag.Name f = Flag.Name f' /\ Flag.Usage f = Flag.Usage f'
  /\ Flag.DefValue f = Flag.DefValue f'.

(** ** The documentation generator, [gendoc.go] *)

(** [strings.Split(s, sep)] for a separator of one byte. *)
Fixpoint Split (s : string) (sep : ascii) : list string :=
  match s with
  | EmptyString => [EmptyString]
  | String c s' =>
      if Ascii.eqb c sep then EmptyString :: Split s' sep
      else
        match Split s' sep with
        | [] => [String c EmptyString]
        | h :: t => String c h :: t
        end
  end.

(** [strings.Join(l, sep)] *)
Fixpoint Join (l : list string) (sep : string) : string :=
  match l with
  | [] => EmptyString
  | [s] => s
  | s :: l' => s +:+ sep +:+ Join l' sep
  end.

(** One round of the loop of [runEnviron] on the entry [e], with the
    slice [out] and the flag [updatedPath] as its state. *)
Definition environStep (PathListSeparator : string) (binDir : string)
    (st : list string * bool) (e : string) : list string * bool :=
  if String.eqb e "" then st
  else if HasPrefix e "PATH=" then
    (fst st ++ ["PATH=" +:+ binDir +:+ PathListSeparator +:+ drop 5 e], true)
  else (fst st ++ [e], snd st).

(** [runEnviron(binDir)], with the package variable [flagEnv], the result of
    [os.Environ()] and [string(os.PathListSeparator)] as arguments. *)
Definition runEnviron (flagEnv : string) (osEnviron : list string)
    (PathListSeparator : string) (binDir : string) : list string :=
  let input :=
    if String.eqb flagEnv "os" then osEnviron
    else Split flagEnv (ascii_of_nat 44) in
  let st := fold_left (environStep PathListSeparator binDir) input ([], false) in
  let out := if negb (snd st) then fst st ++ ["PATH=" +:+ binDir] else fst st in
  out ++ ["CMDLINE_STYLE=godoc"].

Definition isDigit (c : ascii) : bool :=
  (48 <=? byte_of c) && (byte_of c <=? 57).

Fixpoint allDigits (s : string) : bool :=
  match s with
  | EmptyString => true
  | String c s' => isDigit c && allDigits s'
  end.

Definition parallelFlag : string := " -test.parallel=".

(** A line that the pattern [(?m:(^ -test\.parallel=)(?:\d)+$)] matches:
    the text of the flag from the start of the line, then one digit or
    more up to the end of the line. *)
Definition isParallelLine (line : string) : bool :=
  HasPrefix line parallelFlag
  && negb (String.eqb (drop (String.length parallelFlag) line) "")
  && allDigits (drop (String.length parallelFlag) line).

(** The replacement [$1<number of threads>] of a match. *)
Definition suppressLine (line : string) : string :=
  if isParallelLine line then parallelFlag +:+ "<number of threads>"
  else line.

(** [suppressParallelFlag(input)].  In the multi-line mode of the pattern a
    match is a whole line, so that replacing all matches is replacing the
    lines that match. *)
Definition suppressParallelFlag (input : string) : string :=
  Join (map suppressLine (Split input (ascii_of_nat 10))) nl.

(** [strings.Replace(s, old, "", -1)]: the occurrences of [old] are cut out
    from left to right, and none that overlaps the one before it; [skip] is
    the number of bytes of such an occurrence still to pass over.  With an
    empty [old] nothing is cut. *)
Fixpoint cutAll (skip : nat) (old s : string) : string :=
  match s with
  | EmptyString => EmptyString
  | String c s' =>
      match skip with
      | S k => cutAll k old s'
      | O =>
          if String.prefix old s
          then cutAll (String.length old - 1) old s'
          else String c (cutAll O old s')
      end
  end.

Definition removeAll (old s : string) : string :=
  if String.eqb old "" then s else cutAll O old s.

(** [postProcess(postProcessFlag, tmpDir, body)], with
    [string(filepath.Separator)] as an argument. *)
Definition postProcess (Separator : string) (postProcessFlag : bool)
    (tmpDir body : string) : string :=
  let out := suppressParallelFlag body in
  if negb postProcessFlag then out
  else removeAll (tmpDir +:+ Separator) out.

(** The entries that the loop of [runEnviron] goes through. *)
Definition environInput (flagEnv : string) (osEnviron : list string)
  : list string :=
  if String.eqb flagEnv "os" then osEnviron
  else Split flagEnv (ascii_of_nat 44).

(** An entry that sets [PATH]. *)
Definition setsPath (e : string) : bool := HasPrefix e "PATH=".

(** Whether the byte [c] occurs in [s]. *)
Fixpoint hasByte (c : ascii) (s : string) : bool :=
  match s with
  | EmptyString => false
  | String d s' => Ascii.eqb d c || hasByte c s'
  end.

(** The path of the child [build] of the demo root. *)
Definition demoBuildPath : Path :=
  extend demoPath (leaf "build" "Build things" []).

(** Two registries of one flag that differ in its current value. *)
Definition demoLogHere : FlagSet := [Flag.mk "log" "log file" "/tmp/a" "$TMP"].
Definition demoLogThere : FlagSet := [Flag.mk "log" "log file" "/home/b" "$TMP"].

(** ** Properties *)

Section GoStringFacts.

Lemma eqb_false_of_neq (a b : string) : a <> b -> String.eqb a b = false.
Proof. intros Hne. now apply String.eqb_neq. Qed.

Lemma joinSp_single (s : string) : joinSp [s] = s.
Proof. reflexivity. Qed.



(** The loop that raises a width to the length of each name leaves the
    larger of the start width and the longest name. *)
Lemma widen_fold {A} (name : A -> string) (l : list A) (w0 : Z) :
  0 <= w0 ->
  fold_left
    (fun nameWidth x =>
       if len (name x) >? nameWidth then len (name x) else nameWidth)
    l w0
  = Z.max w0 (longest (map name l)).
Proof.
  revert w0. induction l as [|x l IH]; intros w0 Hw0; simpl.
  - lia.
  - rewrite IH.
    + destruct (Z.gtb_spec (len (name x)) w0); lia.
    + destruct (Z.gtb_spec (len (name x)) w0); lia.
Qed.

End GoStringFacts.

Section FlagFacts.

Context `{Host}.

Lemma countFlags_acc (flags : FlagSet) regexps matching (n : Z) :
  fold_left
    (fun num f =>
       if Bool.eqb matching (matchRegexps regexps (Flag.Name f))
       then num + 1 else num)
    flags n
  = n + Z.of_nat (length (List.filter (selects regexps matching) flags)).
Proof.
  revert n. induction flags as [|f flags IH]; intros n; simpl.
  - lia.
  - rewrite IH. unfold selects at 2.
    destruct (Bool.eqb matching (matchRegexps regexps (Flag.Name f)));
      simpl; lia.
Qed.

Lemma countFlags_filter (flags : FlagSet) regexps matching :
  countFlags flags regexps matching
  = Z.of_nat (length (List.filter (selects regexps matching) flags)).
Proof. unfold countFlags. rewrite countFlags_acc. lia. Qed.

Lemma countFlags_all (flags : FlagSet) :
  countFlags flags None true = Z.of_nat (length flags).
Proof.
  rewrite countFlags_filter. f_equal. f_equal.
  induction flags as [|f flags IH]; simpl; [reflexivity|].
  now rewrite IH.
Qed.

Lemma hasFlags_cases (flags : FlagSet) :
  (countFlags flags None true >? 0)
  = match flags with [] => false | _ :: _ => true end.
Proof.
  rewrite countFlags_all. destruct flags; simpl; [reflexivity|].
  apply Z.gtb_lt. lia.
Qed.

Lemma count_pos_filter (flags : FlagSet) regexps matching :
  (countFlags flags regexps matching >? 0)
  = match List.filter (selects regexps matching) flags with
    | [] => false
    | _ :: _ => true
    end.
Proof.
  rewrite countFlags_filter.
  destruct (List.filter (selects regexps matching) flags); simpl;
    [reflexivity|].
  apply Z.gtb_lt. lia.
Qed.

Lemma printFlags_filter (flags : FlagSet) st regexps matching :
  printFlags flags st regexps matching
  = flat_map (printFlag st) (List.filter (selects regexps matching) flags).
Proof.
  unfold printFlags.
  induction flags as [|f flags IH]; simpl; [reflexivity|].
  rewrite IH. unfold selects at 2.
  destruct (Bool.eqb matching (matchRegexps regexps (Flag.Name f)));
    reflexivity.
Qed.

End FlagFacts.

Section RendererFacts.

Context `{Host}.

Lemma shown_selects (rs : list Regexp) (flags : FlagSet) :
  List.filter (selects (Some rs) true) flags = shownFlags rs flags.
Proof.
  unfold shownFlags. apply List.filter_ext. intros f.
  unfold selects. simpl.
  now destruct (existsb (fun r => MatchString r (Flag.Name f)) rs).
Qed.

Lemma hidden_selects (rs : list Regexp) (flags : FlagSet) :
  List.filter (selects (Some rs) false) flags = hiddenFlags rs flags.
Proof.
  unfold hiddenFlags. apply List.filter_ext. intros f.
  unfold selects. simpl.
  now destruct (existsb (fun r => MatchString r (Flag.Name f)) rs).
Qed.

Lemma shownFlags_nil (flags : FlagSet) : shownFlags [] flags = [].
Proof. unfold shownFlags. induction flags as [|f fl IH]; simpl; auto. Qed.

Lemma hiddenFlags_nil (flags : FlagSet) : hiddenFlags [] flags = flags.
Proof.
  unfold hiddenFlags.
  induction flags as [|f fl IH]; simpl; [auto|f_equal; exact IH].
Qed.

(** C8.  In the short style [usage] writes the short description of the
    target command and its line terminator, and nothing else, whatever the
    path, the rest of the configuration and the first-call flag are. *)
Theorem usage_short_style (wWidth : Z) (path : Path) (config : helpConfig)
    (first : bool) (g : Globals) :
  cfgStyle config = styleShort ->
  usage wWidth path config first g = [Write (Short (target path) +:+ nl)].
Proof.
  intros Hshort. unfold usage. rewrite Hshort. cbn [style_eqb].
  unfold Fprintln. now rewrite joinSp_single.
Qed.

(** C7.  For a path and a short description that are not empty,
    [godocHeader] gives [path + " - " + short] with its first rune in upper
    case when godoc extracts a header from that line, and the path alone
    with its first rune in upper case otherwise; for ["foo bar"] and
    ["does a thing"] these are ["Foo bar - does a thing"] and ["Foo bar"]. *)
Theorem godocHeader_path_and_short (path short : string) :
  path <> "" -> short <> "" ->
  godocHeader path short
  = (if godocExtractsHeader (firstRuneToUpper (path +:+ " - " +:+ short))
     then firstRuneToUpper (path +:+ " - " +:+ short)
     else firstRuneToUpper path)
  /\ godocHeader "foo bar" "does a thing"
     = (if godocExtractsHeader "Foo bar - does a thing"
        then "Foo bar - does a thing" else "Foo bar").
Proof.
  intros Hpath Hshort. split.
  - unfold godocHeader.
    rewrite (eqb_false_of_neq _ _ Hpath), (eqb_false_of_neq _ _ Hshort).
    now destruct (godocExtractsHeader _).
  - unfold godocHeader. simpl String.eqb. cbv iota.
    change (firstRuneToUpper ("foo bar" +:+ " - " +:+ "does a thing"))
      with "Foo bar - does a thing".
    change (firstRuneToUpper "foo bar") with "Foo bar".
    now destruct (godocExtractsHeader _).
Qed.

(** C2, as the code has it.  The token [[flags]] follows the command path
    in the invocation prefix exactly when the target command itself has a
    flag; the flags of the commands above it are not looked at.  Every
    line of the block [Usage:] starts with that prefix. *)
Theorem flags_token_own_flags (path : Path) (config : helpConfig) :
  cmdPathF path config
  = "   " +:+ pathName (prefix (env config)) (commands path)
    +:+ match Flags (target path) with
        | [] => ""
        | _ :: _ => " [flags]"
        end
  /\ Forall (fun op => exists rest, op = Fprintln (cmdPathF path config :: rest))
       (usageLines path config).
Proof.
  split.
  - unfold cmdPathF. rewrite hasFlags_cases.
    now destruct (Flags (target path)).
  - unfold usageLines. apply Forall_app. split.
    + destruct (RunnerOf (target path)); [|constructor].
      destruct (negb _); repeat constructor; eexists; reflexivity.
    + destruct (hasSubcommands _ _); repeat constructor.
      eexists; reflexivity.
Qed.

Lemma hideAll_filter (calls : list (list Regexp)) (g : Globals) :
  nonHiddenGlobalFlags
    (fold_left (fun g regexps => HideGlobalFlagsExcept regexps g) calls g)
  = match calls with
    | [] => nonHiddenGlobalFlags g
    | _ :: _ => Some (default [] (nonHiddenGlobalFlags g) ++ concat calls)
    end.
Proof.
  revert g. induction calls as [|rs calls IH]; intros g; [reflexivity|].
  cbn [fold_left]. rewrite IH.
  assert (Hnh : nonHiddenGlobalFlags (HideGlobalFlagsExcept rs g)
                = Some (default [] (nonHiddenGlobalFlags g) ++ rs)).
  { destruct g as [flags [l|]]; simpl; [reflexivity|]. now destruct rs. }
  rewrite Hnh. destruct calls as [|rs' calls].
  - simpl. now rewrite app_nil_r.
  - simpl. now rewrite <- app_assoc.
Qed.

(** C9.  A call of [HideGlobalFlagsExcept] leaves a filter that is not
    nil and holds the regexps of the earlier calls followed by its own, so
    that two calls in a row are one call with both lists.  In the compact
    style a first call of [flagsUsage] then prints, of the global flags,
    those whose name one of these regexps matches, and the reminder when
    others exist.  Calls made one after the other from the nil filter leave
    the regexps of all of them.  After one call without a regexp no global
    flag is printed. *)
Theorem HideGlobalFlagsExcept_filter (rs : list Regexp) (g : Globals)
    (path : Path) (e : Env) (w : Z) :
  let g' := HideGlobalFlagsExcept rs g in
  let all := default [] (nonHiddenGlobalFlags g) ++ rs in
  let config := mkConfig e styleCompact w in
  nonHiddenGlobalFlags g' = Some all
  /\ globalFlags g' = globalFlags g
  /\ (forall rs', HideGlobalFlagsExcept rs' g'
                  = HideGlobalFlagsExcept (rs ++ rs') g)
  /\ (forall flags calls,
        nonHiddenGlobalFlags (hideAll (rs :: calls) (mkGlobals flags None))
        = Some (rs ++ concat calls))
  /\ flagsUsage path config true g'
     = commandFlagsUsage path config
       ++ match shownFlags all (globalFlags g) with
          | [] => []
          | shown =>
              [Fprintln []; Fprintln ["The global flags are:"]]
              ++ flat_map (printFlag styleCompact) shown
          end
       ++ match hiddenFlags all (globalFlags g) with
          | [] => []
          | _ :: _ => [Fprintln []; Fprintln [fullhelp path config]]
          end
  /\ (forall flags,
        flagsUsage path config true
          (HideGlobalFlagsExcept [] (mkGlobals flags None))
        = commandFlagsUsage path config
          ++ match flags with
             | [] => []
             | _ :: _ => [Fprintln []; Fprintln [fullhelp path config]]
             end).
Proof.
  assert (Hnh : forall rs0 g0,
             nonHiddenGlobalFlags (HideGlobalFlagsExcept rs0 g0)
             = Some (default [] (nonHiddenGlobalFlags g0) ++ rs0)).
  { intros rs0 [flags [l|]]; simpl; [reflexivity|].
    now destruct rs0. }
  assert (Hcompact : forall flags all0,
             flagsUsage path (mkConfig e styleCompact w) true
               (mkGlobals flags (Some all0))
             = commandFlagsUsage path (mkConfig e styleCompact w)
               ++ match shownFlags all0 flags with
                  | [] => []
                  | shown =>
                      [Fprintln []; Fprintln ["The global flags are:"]]
                      ++ flat_map (printFlag styleCompact) shown
                  end
               ++ match hiddenFlags all0 flags with
                  | [] => []
                  | _ :: _ =>
                      [Fprintln [];
                       Fprintln [fullhelp path (mkConfig e styleCompact w)]]
                  end).
  { intros flags all0. unfold flagsUsage, globalFlagsUsage. simpl.
    rewrite !count_pos_filter, printFlags_filter.
    rewrite shown_selects, hidden_selects.
    f_equal. f_equal.
    - now destruct (shownFlags all0 flags).
    - now destruct (hiddenFlags all0 flags). }
  intros g' all config. subst g' all config.
  split; [apply Hnh|]. split; [reflexivity|]. split; [|split; [|split]].
  - intros rs'. unfold HideGlobalFlagsExcept. simpl.
    destruct (nonHiddenGlobalFlags g) as [l|]; simpl.
    + now rewrite app_assoc.
    + destruct rs as [|r rs]; simpl; [now destruct rs'|reflexivity].
  - intros flags calls. unfold hideAll. cbn [fold_left].
    rewrite hideAll_filter, Hnh. simpl.
    destruct calls; simpl; [now rewrite app_nil_r|reflexivity].
  - destruct g as [flags nh]. specialize (Hnh rs (mkGlobals flags nh)).
    unfold HideGlobalFlagsExcept in *. simpl in *. rewrite Hnh.
    apply Hcompact.
  - intros flags. unfold HideGlobalFlagsExcept. simpl.
    rewrite Hcompact. f_equal.
    rewrite shownFlags_nil, hiddenFlags_nil. reflexivity.
Qed.

End RendererFacts.

Section TableFacts.

Context `{Host}.


Lemma commandNameWidth_max (cmd : Command) (subCmds : list string) :
  commandNameWidth cmd subCmds
  = Z.max minNameWidth
      (Z.max (longest (map Name (Children cmd)))
         (longest (map (shownName cmd) subCmds))).
Proof.
  unfold commandNameWidth.
  rewrite (widen_fold Name (Children cmd) minNameWidth) by (unfold minNameWidth; lia).
  rewrite (widen_fold (shownName cmd) subCmds).
  - lia.
  - unfold minNameWidth. lia.
Qed.



End TableFacts.

Section BinaryRowFacts.

Context `{Host}.

Lemma usage_table (wWidth : Z) (path : Path) (config : helpConfig)
    (first : bool) (g : Globals) :
  style_eqb (cfgStyle config) styleShort = false ->
  exists pre post,
    usage wWidth path config first g
    = pre ++ commandTable path config first ++ post.
Proof.
  intros Hne. unfold usage. rewrite Hne.
  eexists ((if negb first then _ else []) ++ [_; _; _] ++ usageLines path config).
  eexists. rewrite <- !app_assoc. reflexivity.
Qed.

Lemma usage_not_short (wWidth : Z) (path : Path) (config : helpConfig)
    (first : bool) (g : Globals) :
  cfgStyle config <> styleShort ->
  exists pre post,
    usage wWidth path config first g
    = pre ++ commandTable path config first ++ post.
Proof.
  intros Hstyle. apply usage_table.
  destruct (cfgStyle config); simpl; congruence.
Qed.

(** C3, as the code has it.  Outside the short style, the row of a
    discovered binary pairs its name without the parent prefix with the
    whole output captured from a run of the binary with argument [-help]
    and [CMDLINE_STYLE] set to [short], or with the text
    "No description available" when that run fails. *)
Theorem binary_row_shows_captured_output (wWidth : Z) (path : Path)
    (config : helpConfig) (first : bool) (g : Globals) (subCmd : string) :
  cfgStyle config <> styleShort ->
  In subCmd (binarySubCmds (target path) config) ->
  let cmd := target path in
  let cmdPath := pathName (prefix (env config)) (commands path) in
  let r := binaryRun subCmd cmdPath (shortEnv config) ["-help"] in
  let description :=
    match status r with
    | None => captured r
    | Some _ => "No description available"
    end in
  Vars (shortEnv config) !! "CMDLINE_STYLE" = Some "short"
  /\ In (Write (padRight (commandNameWidth cmd (binarySubCmds cmd config))
                  (TrimPrefix subCmd (Name cmd +:+ "-"))
                +:+ " " +:+ description))
       (usage wWidth path config first g).
Proof.
  intros Hstyle Hin cmd cmdPath r description. split.
  - unfold shortEnv. simpl. apply lookup_insert_eq.
  - destruct (usage_not_short wWidth path config first g Hstyle)
      as (pre & post & ->).
    apply in_or_app. right. apply in_or_app. left.
    unfold commandTable. fold cmd. apply in_or_app. right.
    apply in_or_app. left.
    apply in_flat_map.
    exists (shownName cmd subCmd, binaryShort cmdPath config subCmd).
    split.
    + unfold commandRows. fold cmd. apply in_or_app. right.
      apply in_or_app. left.
      apply (in_map (fun s => (shownName cmd s, binaryShort cmdPath config s))).
      exact Hin.
    + left. reflexivity.
Qed.

End BinaryRowFacts.

Section WalkerFacts.

Context `{Host}.

Lemma depth_child (c child : Command) :
  In child (Children c) -> (depth child < depth c)%nat.
Proof.
  destruct c as [n s l f an al children t lp r]. simpl.
  induction children as [|x xs IH]; simpl; intros Hin; [contradiction|].
  destruct Hin as [-> | Hin]; [lia|].
  specialize (IH Hin). lia.
Qed.

Lemma no_child_named (children : list Command) (name : string) :
  Forall (fun child => Name child <> name) children ->
  existsb (fun child => String.eqb (Name child) name) children = false.
Proof.
  induction 1 as [|c cs Hc _ IH]; simpl; [reflexivity|].
  now rewrite (eqb_false_of_neq _ _ Hc).
Qed.

Lemma needsHelpChild_true (cmd : Command) :
  Children cmd <> [] ->
  Forall (fun child => Name child <> helpName) (Children cmd) ->
  needsHelpChild cmd = true.
Proof.
  intros Hne Hall. unfold needsHelpChild.
  rewrite (no_child_named _ _ Hall). apply Z.gtb_lt.
  destruct (Children cmd); [congruence|simpl length; lia].
Qed.

Lemma needsHelpChild_no_children (cmd : Command) :
  Children cmd = [] -> needsHelpChild cmd = false.
Proof. intros Hnil. unfold needsHelpChild. now rewrite Hnil. Qed.

(** A dump that is not a first call ends with fuel at least the depth of
    the tree. *)
Lemma usageAll_total (wWidth : Z) (config : helpConfig) (g : Globals)
    (fuel : nat) :
  forall path, (depth (target path) <= fuel)%nat ->
    is_Some (usageAll fuel wWidth path config false g).
Proof.
  induction fuel as [|fuel IH]; intros path Hdepth.
  - destruct (target path); simpl in Hdepth; lia.
  - cbn [usageAll].
    assert (Hchildren :
              is_Some (mapM (fun child =>
                               usageAll fuel wWidth (extend path child)
                                 config false g)
                         (Children (target path)))).
    { apply mapM_is_Some_2. apply List.Forall_forall. intros child Hin.
      cbn [compose]. apply IH. cbn [extend target].
      pose proof (depth_child _ _ Hin). lia. }
    destruct Hchildren as [cs ->]. cbn [mbind option_bind andb]. eauto.
Qed.

(** C1, as the code has it.  A command with at least one built-in child
    and no child named [help] needs a help command, whatever its
    external-search flag is: on a first call the table of sub-commands ends
    with the row of the help command made by [newCommand] (the short style
    prints no table), and with enough fuel the first call of [usageAll]
    holds the dump of that help command.  A command without a built-in
    child gets none. *)
Theorem help_synthesized_for_children (wWidth : Z) (path : Path)
    (config : helpConfig) (g : Globals) :
  Children (target path) <> [] ->
  Forall (fun child => Name child <> helpName) (Children (target path)) ->
  let cmd := target path in
  let help := newCommand path config in
  needsHelpChild cmd = true
  /\ (exists rows,
        commandRows path config true = rows ++ [(Name help, Short help)])
  /\ (exists pre post,
        usage wWidth path config true g
        = if style_eqb (cfgStyle config) styleShort
          then [Fprintln [Short cmd]]
          else pre
               ++ printShort (commandNameWidth cmd (binarySubCmds cmd config))
                    (Name help) (Short help)
               ++ post)
  /\ (exists fuel0, forall fuel, (fuel0 <= fuel)%nat ->
        exists pre helpOps post,
          usageAll fuel wWidth (extend path help) config false g
          = Some helpOps
          /\ usageAll (S fuel) wWidth path config true g
             = Some (pre ++ helpOps ++ post))
  /\ (forall c, Children c = [] -> needsHelpChild c = false).
Proof.
  intros Hne Hall cmd help.
  pose proof (needsHelpChild_true cmd Hne Hall) as Hneeds.
  assert (Hrows : exists rows,
             commandRows path config true = rows ++ [(Name help, Short help)]).
  { unfold commandRows. fold cmd. rewrite Hneeds. simpl.
    eexists. rewrite app_assoc. reflexivity. }
  split; [exact Hneeds|]. split; [exact Hrows|]. split; [|split].
  - destruct (style_eqb (cfgStyle config) styleShort) eqn:Hshort.
    + exists [], []. unfold usage. now rewrite Hshort.
    + destruct (usage_table wWidth path config true g Hshort)
        as (pre & post & ->).
      unfold commandTable. fold cmd. destruct Hrows as [rows ->].
      rewrite flat_map_app. cbn [flat_map fst snd]. rewrite app_nil_r.
      match goal with
      | |- exists p q, pre ++ (?hdr ++ (?body ++ ?row) ++ ?ftr) ++ post = _ =>
          exists (pre ++ hdr ++ body), (ftr ++ post)
      end.
      rewrite <- !app_assoc. reflexivity.
  - exists (depth cmd + depth help)%nat. intros fuel Hfuel.
    assert (Hd : (depth (target (extend path help)) <= fuel)%nat)
      by (cbn [extend target]; lia).
    destruct (usageAll_total wWidth config g fuel (extend path help) Hd)
      as [helpOps Hhelp].
    assert (Hchildren :
              is_Some (mapM (fun child =>
                               usageAll fuel wWidth (extend path child)
                                 config false g)
                         (Children cmd))).
    { apply mapM_is_Some_2. apply List.Forall_forall. intros child Hin.
      cbn [compose]. apply usageAll_total. cbn [extend target].
      pose proof (depth_child _ _ Hin). lia. }
    destruct Hchildren as [cs Hcs].
    exists (usage wWidth path config true g
            ++ concat cs
            ++ flat_map
                 (binaryUsage wWidth cmd
                    (pathName (prefix (env config)) (commands path)) config)
                 (binarySubCmds cmd config)),
      helpOps,
      (flat_map
         (topicUsage wWidth
            (pathName (prefix (env config)) (commands path)) config)
         (Topics cmd)).
    split; [exact Hhelp|].
    cbn [usageAll]. fold cmd. rewrite Hcs. cbn [mbind option_bind].
    rewrite Hneeds. cbn [andb]. fold help. rewrite Hhelp.
    cbn [mbind option_bind]. rewrite <- !app_assoc. reflexivity.
  - apply needsHelpChild_no_children.
Qed.

End WalkerFacts.

Section DispatcherFacts.

Context `{Host}.

Lemma find_child_none (children : list Command) (name : string) :
  Forall (fun child => Name child <> name) children ->
  List.find (fun child => String.eqb (Name child) name) children = None.
Proof.
  induction 1 as [|c cs Hc _ IH]; simpl; [reflexivity|].
  now rewrite (eqb_false_of_neq _ _ Hc).
Qed.

Lemma find_topic_none (topics : list Topic.t) (name : string) :
  Forall (fun topic => Topic.Name topic <> name) topics ->
  List.find (fun topic => String.eqb (Topic.Name topic) name) topics = None.
Proof.
  induction 1 as [|t ts Ht _ IH]; simpl; [reflexivity|].
  now rewrite (eqb_false_of_neq _ _ Ht).
Qed.


(** The dispatcher on a segment that is neither the token of a full dump,
    nor the name of a built-in child, nor [help]. *)
Lemma runHelp_no_command (fuel : nat) (wWidth : Z) (subName : string)
    (subArgs : list string) (path : Path) (config : helpConfig)
    (g : Globals) :
  subName <> "..." ->
  Forall (fun child => Name child <> subName) (Children (target path)) ->
  subName <> helpName ->
  runHelp fuel wWidth (subName :: subArgs) path config g
  = let cmd := target path in
    let cmdPath := pathName (prefix (env config)) (commands path) in
    let subCmd := Name cmd +:+ "-" +:+ subName in
    if LookPath cmd && lookPath subCmd (pathDirs (env config)) then
      let r := binaryRun subCmd cmdPath (delegateEnv config)
                 (delegateArgs subArgs) in
      Some (map (fun c => FromChild (fst c) (snd c)) (written r), status r)
    else
      match List.find (fun topic => String.eqb (Topic.Name topic) subName)
              (Topics cmd) with
      | Some topic => Some ([OnWriter (Fprintln [Topic.Long topic])], None)
      | None =>
          Some (usageErrorf (usageFunc path config g)
                  (unknownMessage cmdPath subName))
      end.
Proof.
  intros Hdots Hchild Hhelp. cbn [runHelp].
  rewrite (eqb_false_of_neq _ _ Hdots), (find_child_none _ _ Hchild).
  assert (Hh : String.eqb helpName subName = false)
    by (apply eqb_false_of_neq; congruence).
  rewrite Hh. reflexivity.
Qed.

(** C4.  When a segment resolves to a discovered binary (it is not the
    name of a built-in child nor [help], the command searches for external
    binaries and [<name>-<segment>] is on the search path), [runHelp] runs
    that binary with [-help] when no segment is left and with [help] and
    the segments left otherwise, in the environment of the run with
    [CMDLINE_STYLE] set to the style; what the binary writes and the error
    of its run are the outcome of [runHelp], unchanged. *)
Theorem runHelp_delegates_to_binary (fuel : nat) (wWidth : Z)
    (subName : string) (subArgs : list string) (path : Path)
    (config : helpConfig) (g : Globals) :
  subName <> "..." ->
  Forall (fun child => Name child <> subName) (Children (target path)) ->
  subName <> helpName ->
  LookPath (target path) = true ->
  lookPath (Name (target path) +:+ "-" +:+ subName) (pathDirs (env config))
  = true ->
  let e := delegateEnv config in
  let args :=
    match subArgs with
    | [] => ["-help"]
    | _ :: _ => "help" :: subArgs
    end in
  let r :=
    binaryRun (Name (target path) +:+ "-" +:+ subName)
      (pathName (prefix (env config)) (commands path)) e args in
  Vars e !! "CMDLINE_STYLE" = Some (styleString (cfgStyle config))
  /\ (forall k, k <> "CMDLINE_STYLE" -> Vars e !! k = Vars (env config) !! k)
  /\ runHelp fuel wWidth (subName :: subArgs) path config g
     = Some (map (fun c => FromChild (fst c) (snd c)) (written r), status r).
Proof.
  intros Hdots Hchild Hhelp Hlook Hfound e args r. split; [|split].
  - apply lookup_insert_eq.
  - intros k Hk. unfold e, delegateEnv. simpl. now apply lookup_insert_ne.
  - rewrite runHelp_no_command by assumption. cbv zeta.
    rewrite Hlook, Hfound. cbn [andb].
    subst r args e. now destruct subArgs.
Qed.

(** C5, as the code has it.  When a segment is not the token [...] of a
    full dump, is the name of no built-in child, is not [help], resolves to
    no binary and is the name of no topic, [runHelp] fails with the error
    whose message is the command path followed by
    ": unknown command or topic " and the segment in quotes; the message
    goes to the error stream and the usage of the command follows it
    there. *)
Theorem runHelp_unknown_segment (fuel : nat) (wWidth : Z) (subName : string)
    (subArgs : list string) (path : Path) (config : helpConfig)
    (g : Globals) :
  subName <> "..." ->
  Forall (fun child => Name child <> subName) (Children (target path)) ->
  subName <> helpName ->
  LookPath (target path)
  && lookPath (Name (target path) +:+ "-" +:+ subName) (pathDirs (env config))
  = false ->
  Forall (fun topic => Topic.Name topic <> subName) (Topics (target path)) ->
  let msg :=
    pathName (prefix (env config)) (commands path)
    +:+ ": unknown command or topic " +:+ quoted subName in
  runHelp fuel wWidth (subName :: subArgs) path config g
  = Some (OnStderr msg
          :: map OnStderrWriter
               (usage (width config) path config (firstCall (env config)) g
                ++ [Flush]),
          Some (ErrUsage msg)).
Proof.
  intros Hdots Hchild Hhelp Hbinary Htopic msg.
  rewrite runHelp_no_command by assumption. cbv zeta.
  rewrite Hbinary, (find_topic_none _ _ Htopic). reflexivity.
Qed.


End DispatcherFacts.

(** ** Runs on the demo tree *)

(** C1 as the specification states it fails on a command that searches for
    external binaries and has no built-in child: it has a sub-command, the
    binary [root-extra], and no child named [help], yet no help command is
    made for it, neither as a row of its table nor in the full dump. *)
Lemma search_only_command_gets_no_help :
  LookPath demoLookOnly = true
  /\ Forall (fun child => Name child <> helpName) (Children demoLookOnly)
  /\ @binarySubCmds demoHost demoLookOnly demoCompact = ["root-extra"]
  /\ needsHelpChild demoLookOnly = false
  /\ @commandRows demoHost demoLookOnlyPath demoCompact true
     = [("extra", "Extra tool" +:+ nl +:+ "More about it" +:+ nl)]
  /\ @usageAll demoHost 3 80 demoLookOnlyPath demoCompact true demoGlobals
     = Some (@usage demoHost 80 demoLookOnlyPath demoCompact true demoGlobals
             ++ [Write ("Extra tool" +:+ nl +:+ "More about it" +:+ nl)]).
Proof.
  split; [reflexivity|]. split; [constructor|].
  split; [reflexivity|]. split; [reflexivity|].
  split; [reflexivity|]. vm_compute. reflexivity.
Qed.

(** C2 as the specification states it fails below a command with a flag:
    the root has a flag, its child [build] has none, and the invocation
    line of the child has no token [[flags]]. *)
Lemma flags_token_ignores_ancestors :
  @anyHasFlags demoHost demoChildPath = true
  /\ @cmdPathF demoHost demoChildPath demoCompact = "   root build"
  /\ Contains (@cmdPathF demoHost demoChildPath demoCompact) "[flags]" = false
  /\ @usageLines demoHost demoChildPath demoCompact = [Write ("   root build" +:+ nl)].
Proof. repeat split; reflexivity. Qed.

(** C3 as the specification states it fails on a binary that answers the
    request with two lines: the row shows both lines, not the first one. *)
Lemma binary_row_is_not_first_line :
  status demoShortAnswer = None
  /\ captured demoShortAnswer = "Extra tool" +:+ nl +:+ "More about it" +:+ nl
  /\ firstLine (captured demoShortAnswer) = "Extra tool"
  /\ @binaryShort demoHost "root" demoCompact "root-extra"
     = captured demoShortAnswer
  /\ @binaryShort demoHost "root" demoCompact "root-extra"
     <> firstLine (captured demoShortAnswer)
  /\ @commandTable demoHost demoLookOnlyPath demoCompact true
     = [ Write nl; Write ("The root commands are:" +:+ nl);
         SetIndents ["   "; "               "];
         Write ("extra       Extra tool" +:+ nl +:+ "More about it" +:+ nl);
         Flush; SetIndents [];
         Write ("Run " +:+ dquote +:+ "root help [command]" +:+ dquote
                +:+ " for command usage." +:+ nl) ].
Proof.
  split; [reflexivity|]. split; [reflexivity|].
  split; [reflexivity|]. split; [reflexivity|]. split; [|reflexivity].
  vm_compute. discriminate.
Qed.

Lemma help_synthesized_for_children_witness :
  Children demoRoot <> []
  /\ Forall (fun child => Name child <> helpName) (Children demoRoot)
  /\ needsHelpChild demoRoot = true
  /\ exists rows,
       @commandRows demoHost demoPath demoCompact true
       = rows ++ [("help", "Display help for commands or topics")].
Proof.
  assert (Hne : Children (target demoPath) <> []) by discriminate.
  assert (Hall : Forall (fun child => Name child <> helpName)
                   (Children (target demoPath)))
    by (repeat constructor; discriminate).
  split; [exact Hne|]. split; [exact Hall|].
  destruct (@help_synthesized_for_children demoHost 80 demoPath demoCompact
              demoGlobals Hne Hall) as (Hneeds & Hrows & _).
  split; [exact Hneeds|exact Hrows].
Defined.

Lemma binary_row_shows_captured_output_witness :
  cfgStyle demoCompact <> styleShort
  /\ In "root-extra" (@binarySubCmds demoHost demoRoot demoCompact)
  /\ In (Write ("extra       Extra tool" +:+ nl +:+ "More about it" +:+ nl))
       (@usage demoHost 80 demoPath demoCompact true demoGlobals).
Proof.
  assert (Hstyle : cfgStyle demoCompact <> styleShort) by discriminate.
  assert (Hin : In "root-extra" (@binarySubCmds demoHost (target demoPath) demoCompact))
    by (left; reflexivity).
  split; [exact Hstyle|]. split; [exact Hin|].
  exact (proj2 (@binary_row_shows_captured_output demoHost 80 demoPath demoCompact
                  true demoGlobals "root-extra" Hstyle Hin)).
Defined.


Lemma godocHeader_path_and_short_witness :
  "foo bar" <> "" /\ "does, a thing" <> ""
  /\ @godocHeader demoHost "foo bar" "does a thing" = "Foo bar - does a thing"
  /\ @godocHeader demoHost "foo bar" "does, a thing" = "Foo bar".
Proof.
  assert (Hp : "foo bar" <> "") by discriminate.
  assert (Hs : "does, a thing" <> "") by discriminate.
  split; [exact Hp|]. split; [exact Hs|].
  destruct (@godocHeader_path_and_short demoHost "foo bar" "does, a thing"
              Hp Hs) as [Hgen Hfoo].
  split; [rewrite Hfoo|rewrite Hgen]; reflexivity.
Defined.

Lemma runHelp_delegates_to_binary_witness :
  "extra" <> "..."
  /\ Forall (fun child => Name child <> "extra") (Children demoRoot)
  /\ "extra" <> helpName
  /\ LookPath demoRoot = true
  /\ @lookPath demoHost "root-extra" ["/bin"] = true
  /\ @runHelp demoHost 3 80 ["extra"; "x"] demoPath demoCompact demoGlobals
     = Some ([FromChild Stdout ("extra: help x" +:+ nl)],
             Some (ErrExitCode 2)).
Proof.
  assert (Hdots : "extra" <> "...") by discriminate.
  assert (Hchild : Forall (fun child => Name child <> "extra")
                     (Children (target demoPath)))
    by (repeat constructor; discriminate).
  assert (Hhelp : "extra" <> helpName) by discriminate.
  assert (Hlook : LookPath (target demoPath) = true) by reflexivity.
  assert (Hfound : @lookPath demoHost (Name (target demoPath) +:+ "-" +:+ "extra")
                     (@pathDirs demoHost (env demoCompact)) = true) by reflexivity.
  split; [exact Hdots|]. split; [exact Hchild|]. split; [exact Hhelp|].
  split; [exact Hlook|]. split; [exact Hfound|].
  destruct (@runHelp_delegates_to_binary demoHost 3 80 "extra" ["x"] demoPath
              demoCompact demoGlobals Hdots Hchild Hhelp Hlook Hfound)
    as (_ & _ & ->).
  reflexivity.
Defined.

Lemma runHelp_unknown_segment_witness :
  "deploy" <> "..."
  /\ Forall (fun child => Name child <> "deploy") (Children demoRoot)
  /\ "deploy" <> helpName
  /\ LookPath demoRoot && @lookPath demoHost "root-deploy" ["/bin"] = false
  /\ Forall (fun topic => Topic.Name topic <> "deploy") (Topics demoRoot)
  /\ exists usageOps,
       @runHelp demoHost 3 80 ["deploy"] demoPath demoCompact demoGlobals
       = Some (OnStderr ("root: unknown command or topic "
                         +:+ dquote +:+ "deploy" +:+ dquote)
               :: map OnStderrWriter usageOps,
               Some (ErrUsage ("root: unknown command or topic "
                               +:+ dquote +:+ "deploy" +:+ dquote)))
       /\ usageOps = @usage demoHost 80 demoPath demoCompact true demoGlobals ++ [Flush].
Proof.
  assert (Hdots : "deploy" <> "...") by discriminate.
  assert (Hchild : Forall (fun child => Name child <> "deploy")
                     (Children (target demoPath)))
    by (repeat constructor; discriminate).
  assert (Hhelp : "deploy" <> helpName) by discriminate.
  assert (Hbinary : LookPath (target demoPath)
                    && @lookPath demoHost
                         (Name (target demoPath) +:+ "-" +:+ "deploy")
                         (@pathDirs demoHost (env demoCompact)) = false)
    by reflexivity.
  assert (Htopic : Forall (fun topic => Topic.Name topic <> "deploy")
                     (Topics (target demoPath)))
    by (repeat constructor; discriminate).
  split; [exact Hdots|]. split; [exact Hchild|]. split; [exact Hhelp|].
  split; [exact Hbinary|]. split; [exact Htopic|].
  eexists. split; [|reflexivity].
  exact (@runHelp_unknown_segment demoHost 3 80 "deploy" [] demoPath demoCompact
           demoGlobals Hdots Hchild Hhelp Hbinary Htopic).
Defined.



(** C5 as the specification states it fails on the token [...]: it names no
    built-in child, is not [help], resolves to no binary and names no topic,
    and [runHelp] dumps the tree and returns no error. *)
Lemma dump_token_is_not_unknown :
  Forall (fun child => Name child <> "...") (Children demoRoot)
  /\ "..." <> helpName
  /\ LookPath demoRoot && @lookPath demoHost "root-..." ["/bin"] = false
  /\ Forall (fun topic => Topic.Name topic <> "...") (Topics demoRoot)
  /\ exists ops,
       @usageAll demoHost 3 80 demoPath demoCompact true demoGlobals = Some ops
       /\ @runHelp demoHost 3 80 ["..."] demoPath demoCompact demoGlobals
          = Some (map OnWriter ops, None).
Proof.
  split; [repeat constructor; discriminate|]. split; [discriminate|].
  split; [reflexivity|]. split; [repeat constructor; discriminate|].
  destruct (@usageAll demoHost 3 80 demoPath demoCompact true demoGlobals)
    as [ops|] eqn:Hops; [|vm_compute in Hops; discriminate].
  exists ops. split; [reflexivity|].
  cbn [runHelp]. change (String.eqb "..." "...") with true. cbv iota.
  change (@firstCall demoHost (env demoCompact)) with true.
  rewrite Hops. reflexivity.
Qed.


Lemma usage_short_style_witness :
  cfgStyle (demoConfig styleShort) = styleShort
  /\ @usage demoHost 80 demoPath (demoConfig styleShort) false demoGlobals
     = [Write ("The root" +:+ nl)].
Proof.
  split; [reflexivity|].
  exact (@usage_short_style demoHost 80 demoPath (demoConfig styleShort) false
           demoGlobals eq_refl).
Defined.

(** ** Further properties of the help command *)

Section HeaderFacts.

Context `{Host}.

Lemma byte_of_range (c : ascii) : 0 <= byte_of c < 256.
Proof.
  unfold byte_of. pose proof (N_ascii_bounded c) as Hb. lia.
Qed.

Lemma byte_of_of (b : Z) : 0 <= b < 256 -> byte_of (of_byte b) = b.
Proof.
  intros Hb. unfold of_byte, byte_of.
  rewrite N_ascii_embedding by lia. lia.
Qed.

Lemma decode_ascii (c : ascii) (s : string) :
  byte_of c < 128 -> Utf8.DecodeRuneInString (String c s) = (byte_of c, 1%nat).
Proof.
  intros Hc. unfold Utf8.DecodeRuneInString.
  assert (Hlt : (byte_of c <? 128) = true) by (apply Z.ltb_lt; exact Hc).
  destruct s as [|c1 [|c2 [|c3 s]]]; cbn [Utf8.head4]; now rewrite Hlt.
Qed.

Lemma ToUpper_ascii (b : Z) : 0 <= b < 128 -> 0 <= ToUpper b < 128.
Proof.
  intros Hb. unfold ToUpper, Utf8.MaxASCII.
  destruct (Z.leb_spec b 127); [|lia].
  destruct (Z.leb_spec 97 b); destruct (Z.leb_spec b 122); simpl; lia.
Qed.

Lemma ToUpper_twice (b : Z) : 0 <= b < 128 -> ToUpper (ToUpper b) = ToUpper b.
Proof.
  intros Hb. unfold ToUpper, Utf8.MaxASCII.
  destruct (Z.leb_spec b 127); [|lia].
  destruct (Z.leb_spec 97 b); destruct (Z.leb_spec b 122); simpl;
    repeat match goal with
           | |- context [?x <=? ?y] => destruct (Z.leb_spec x y); simpl
           end; lia.
Qed.

Lemma encode_ascii (r : Z) :
  0 <= r < 128 -> Utf8.encode r = String (of_byte r) EmptyString.
Proof.
  intros Hr. unfold Utf8.encode, Utf8.MaxASCII.
  destruct (Z.leb_spec 0 r); [|lia]. destruct (Z.leb_spec r 127); [|lia].
  reflexivity.
Qed.

Lemma encode_nonempty (r : Z) : Utf8.encode r <> EmptyString.
Proof.
  unfold Utf8.encode.
  repeat match goal with
         | |- context [if ?b then _ else _] => destruct b
         end; discriminate.
Qed.

Lemma firstRuneToUpper_cons (c : ascii) (s : string) :
  byte_of c < 128 ->
  firstRuneToUpper (String c s) = String (of_byte (ToUpper (byte_of c))) s.
Proof.
  intros Hc. unfold firstRuneToUpper. cbn [String.eqb].
  rewrite (decode_ascii c s Hc).
  rewrite encode_ascii by (apply ToUpper_ascii; pose proof (byte_of_range c); lia).
  reflexivity.
Qed.

Lemma firstRuneToUpper_nonempty (s : string) :
  firstRuneToUpper s = EmptyString -> s = EmptyString.
Proof.
  destruct s as [|c s]; [reflexivity|]. unfold firstRuneToUpper.
  cbn [String.eqb]. destruct (Utf8.DecodeRuneInString (String c s)) as [r n].
  intros Heq. exfalso.
  destruct (Utf8.encode (ToUpper r)) eqn:Henc.
  - now apply (encode_nonempty (ToUpper r)).
  - discriminate.
Qed.

Lemma startsASCII_cons (s : string) :
  startsASCII s = true -> exists c s', s = String c s' /\ byte_of c < 128.
Proof.
  destruct s as [|c s']; [discriminate|]. simpl. intros Hc.
  exists c, s'. split; [reflexivity|]. now apply Z.ltb_lt.
Qed.

(** X1.  On a string whose first byte is an ASCII byte, [firstRuneToUpper]
    changes at most that byte: the length and the rest of the string are
    kept, and a second application changes nothing. *)
Theorem firstRuneToUpper_ascii_start (s : string) :
  startsASCII s = true ->
  String.length (firstRuneToUpper s) = String.length s
  /\ drop 1 (firstRuneToUpper s) = drop 1 s
  /\ startsASCII (firstRuneToUpper s) = true
  /\ firstRuneToUpper (firstRuneToUpper s) = firstRuneToUpper s.
Proof.
  intros Hs. destruct (startsASCII_cons s Hs) as (c & s' & -> & Hc).
  pose proof (byte_of_range c) as Hr.
  pose proof (ToUpper_ascii (byte_of c) ltac:(lia)) as Hu.
  rewrite (firstRuneToUpper_cons c s' Hc).
  assert (Hb : byte_of (of_byte (ToUpper (byte_of c))) = ToUpper (byte_of c))
    by (apply byte_of_of; lia).
  split; [reflexivity|]. split; [reflexivity|]. split.
  - simpl. rewrite Hb. apply Z.ltb_lt. lia.
  - rewrite firstRuneToUpper_cons by (rewrite Hb; lia).
    rewrite Hb, ToUpper_twice by lia. reflexivity.
Qed.

(** X2.  [godocHeader] gives the empty header only for an empty path with
    an empty short description. *)
Theorem godocHeader_empty_iff (path short : string) :
  godocHeader path short = EmptyString
  <-> path = EmptyString /\ short = EmptyString.
Proof.
  split.
  - unfold godocHeader. destruct path as [|c path].
    + cbn [String.eqb]. intros Hs. split; [reflexivity|].
      now apply firstRuneToUpper_nonempty.
    + cbn [String.eqb]. destruct (String.eqb short "").
      * intros Hp. apply firstRuneToUpper_nonempty in Hp. discriminate.
      * destruct (negb _); intros Hp; apply firstRuneToUpper_nonempty in Hp;
          discriminate.
  - intros [-> ->]. reflexivity.
Qed.

(** X3.  For a path that starts with an ASCII byte, the header starts with
    the path in upper-case first letter whatever godoc makes of the line:
    it is that path alone, or that path followed by [" - "] and the short
    description. *)
Theorem godocHeader_starts_with_path (path short : string) :
  startsASCII path = true ->
  godocHeader path short = firstRuneToUpper path
  \/ godocHeader path short = firstRuneToUpper path +:+ " - " +:+ short.
Proof.
  intros Hs. destruct (startsASCII_cons path Hs) as (c & s' & -> & Hc).
  unfold godocHeader. cbn [String.eqb].
  destruct (String.eqb short ""); [now left|].
  destruct (negb _); [now left|]. right.
  change (String c s' +:+ " - " +:+ short)
    with (String c (s' +:+ " - " +:+ short)).
  now rewrite !firstRuneToUpper_cons by exact Hc.
Qed.

Lemma append_length (a b : string) :
  String.length (a +:+ b) = (String.length a + String.length b)%nat.
Proof. induction a as [|c a IH]; simpl; [reflexivity|now rewrite IH]. Qed.

Lemma Repeat_length (c : string) (n : nat) :
  String.length (Repeat c n) = (n * String.length c)%nat.
Proof.
  induction n as [|n IH]; simpl; [reflexivity|].
  rewrite append_length, IH. reflexivity.
Qed.

(** X4.  In the compact and full styles a line break is a flush, one line
    of [=] and a flush; the line is as long as the width of the writer, and
    as long as [defaultWidth] when that width is negative. *)
Theorem lineBreak_rule_width (wWidth : Z) (st : style) :
  st = styleCompact \/ st = styleFull ->
  0 <= defaultWidth ->
  exists rule,
    lineBreak wWidth st = [Flush; Write (rule +:+ nl); Flush]
    /\ len rule = (if wWidth <? 0 then defaultWidth else wWidth)
    /\ rule = Repeat "=" (String.length rule).
Proof.
  intros Hst Hdef.
  exists (Repeat "=" (Z.to_nat (if wWidth <? 0 then defaultWidth else wWidth))).
  assert (Hlen : String.length
                   (Repeat "=" (Z.to_nat (if wWidth <? 0 then defaultWidth
                                          else wWidth)))
                 = Z.to_nat (if wWidth <? 0 then defaultWidth else wWidth)).
  { rewrite Repeat_length. simpl. lia. }
  split; [|split].
  - destruct Hst as [-> | ->]; reflexivity.
  - unfold len. rewrite Hlen.
    destruct (Z.ltb_spec wWidth 0); lia.
  - now rewrite Hlen.
Qed.

End HeaderFacts.

Section FlagGroupFacts.

Context `{Host}.

Lemma named_child_of_existsb (children : list Command) (name : string) :
  existsb (fun child => String.eqb (Name child) name) children = false ->
  Forall (fun child => Name child <> name) children.
Proof.
  induction children as [|c cs IH]; simpl; intros Hex; [constructor|].
  apply orb_false_elim in Hex. destruct Hex as [Hc Hcs].
  constructor; [now apply String.eqb_neq|now apply IH].
Qed.

(** X5.  A command needs the default help command exactly when it has a
    built-in child and none of its children is named [help]. *)
Theorem needsHelpChild_iff (cmd : Command) :
  needsHelpChild cmd = true
  <-> Children cmd <> []
      /\ Forall (fun child => Name child <> helpName) (Children cmd).
Proof.
  split.
  - unfold needsHelpChild.
    destruct (existsb _ (Children cmd)) eqn:Hex; [discriminate|].
    intros Hpos. split.
    + intros Hnil. rewrite Hnil in Hpos. discriminate.
    + now apply named_child_of_existsb.
  - intros [Hne Hall]. now apply needsHelpChild_true.
Qed.

Lemma selects_negb (regexps : option (list Regexp)) (f : Flag.t) :
  selects regexps false f = negb (selects regexps true f).
Proof.
  unfold selects. now destruct (matchRegexps regexps (Flag.Name f)).
Qed.

Lemma filter_split_length {A} (p q : A -> bool) (l : list A) :
  (forall x, q x = negb (p x)) ->
  (length (List.filter p l) + length (List.filter q l))%nat = length l.
Proof.
  intros Hq. induction l as [|x l IH]; simpl; [reflexivity|].
  rewrite Hq. destruct (p x); simpl; lia.
Qed.

Lemma filter_split_perm {A} (p q : A -> bool) (l : list A) :
  (forall x, q x = negb (p x)) ->
  Permutation (List.filter p l ++ List.filter q l) l.
Proof.
  intros Hq. induction l as [|x l IH]; simpl; [constructor|].
  rewrite Hq. destruct (p x); simpl.
  - now constructor.
  - symmetry. apply Permutation_cons_app. now symmetry.
Qed.

(** X6.  Whatever the regexps are, the two groups of [countFlags] and
    [printFlags] split a flag set: every flag is counted in one group and
    only one, and the flags printed in the two groups together are the
    flags of the set, each one once. *)
Theorem flag_groups_split (flags : FlagSet) (st : style)
    (regexps : option (list Regexp)) :
  countFlags flags regexps true + countFlags flags regexps false
  = Z.of_nat (length flags)
  /\ Permutation
       (List.filter (selects regexps true) flags
        ++ List.filter (selects regexps false) flags)
       flags
  /\ printFlags flags st regexps true
     = flat_map (printFlag st) (List.filter (selects regexps true) flags)
  /\ printFlags flags st regexps false
     = flat_map (printFlag st) (List.filter (selects regexps false) flags).
Proof.
  split; [|split; [|split]].
  - rewrite !countFlags_filter, <- Nat2Z.inj_add.
    f_equal. apply filter_split_length, selects_negb.
  - apply filter_split_perm, selects_negb.
  - apply printFlags_filter.
  - apply printFlags_filter.
Qed.

Lemma existsb_app_l {A} (p : A -> bool) (l l' : list A) :
  existsb p l = true -> existsb p (l ++ l') = true.
Proof. intros Hl. rewrite existsb_app, Hl. reflexivity. Qed.

(** X7.  Once the filter of non-hidden global flags is not nil, a call of
    [HideGlobalFlagsExcept] hides no flag that was shown before it: a name
    that matched still matches. *)
Theorem shown_flag_stays_shown (rs : list Regexp) (g : Globals)
    (name : string) :
  nonHiddenGlobalFlags g <> None ->
  matchRegexps (nonHiddenGlobalFlags g) name = true ->
  matchRegexps (nonHiddenGlobalFlags (HideGlobalFlagsExcept rs g)) name = true.
Proof.
  intros Hnil Hshown. destruct g as [flags [l|]]; [|now simpl in Hnil].
  simpl in *. now apply existsb_app_l.
Qed.

Lemma sameButValue_counts (flags flags' : FlagSet)
    (regexps : option (list Regexp)) (matching : bool) :
  Forall2 sameButValue flags flags' ->
  countFlags flags regexps matching = countFlags flags' regexps matching.
Proof.
  intros Hsame. unfold countFlags. generalize 0.
  induction Hsame as [|f f' fl fl' (Hn & _ & _) _ IH]; intros n;
    [reflexivity|].
  simpl. rewrite Hn. apply IH.
Qed.

Lemma sameButValue_prints (flags flags' : FlagSet)
    (regexps : option (list Regexp)) (matching : bool) :
  Forall2 sameButValue flags flags' ->
  printFlags flags styleGoDoc regexps matching
  = printFlags flags' styleGoDoc regexps matching.
Proof.
  intros Hsame. unfold printFlags.
  induction Hsame as [|f f' fl fl' (Hn & Hu & Hd) _ IH]; [reflexivity|].
  simpl. rewrite IH, Hn. unfold printFlag. simpl. now rewrite Hn, Hu, Hd.
Qed.

(** X8.  In the godoc style the usage of the global flags does not depend
    on their current values: two registries whose flags differ at most in
    the current value give the same output. *)
Theorem godoc_ignores_flag_values (path : Path) (e : Env) (w : Z)
    (first : bool) (flags flags' : FlagSet) (nh : option (list Regexp)) :
  Forall2 sameButValue flags flags' ->
  flagsUsage path (mkConfig e styleGoDoc w) first (mkGlobals flags nh)
  = flagsUsage path (mkConfig e styleGoDoc w) first (mkGlobals flags' nh).
Proof.
  intros Hsame. unfold flagsUsage, globalFlagsUsage.
  cbn [globalFlags nonHiddenGlobalFlags cfgStyle].
  rewrite !(sameButValue_counts flags flags' nh _ Hsame).
  rewrite !(sameButValue_prints flags flags' nh _ Hsame).
  reflexivity.
Qed.

End FlagGroupFacts.

Section DumpFacts.

Context `{Host}.

Lemma usage_later_call_globals (wWidth : Z) (path : Path)
    (config : helpConfig) (g g' : Globals) :
  usage wWidth path config false g = usage wWidth path config false g'.
Proof. reflexivity. Qed.

Lemma usageAll_later_call_globals (wWidth : Z) (config : helpConfig)
    (g g' : Globals) (fuel : nat) :
  forall path,
    usageAll fuel wWidth path config false g
    = usageAll fuel wWidth path config false g'.
Proof.
  induction fuel as [|fuel IH]; intros path; [reflexivity|].
  cbn [usageAll andb].
  rewrite (mapM_ext
             (fun child => usageAll fuel wWidth (extend path child) config false g)
             (fun child => usageAll fuel wWidth (extend path child) config false g'))
    by (intros child; apply IH).
  now rewrite (usage_later_call_globals wWidth path config g g').
Qed.

(** What a successful run of [usageAll] is made of. *)
Lemma usageAll_parts (fuel : nat) (wWidth : Z) (path : Path)
    (config : helpConfig) (first : bool) (g : Globals) (ops : list WOp) :
  usageAll fuel wWidth path config first g = Some ops ->
  exists fuel' children help,
    fuel = S fuel'
    /\ mapM (fun child =>
               usageAll fuel' wWidth (extend path child) config false g)
         (Children (target path)) = Some children
    /\ (if first && needsHelpChild (target path) then
          usageAll fuel' wWidth (extend path (newCommand path config)) config
            false g
        else Some []) = Some help
    /\ ops
       = usage wWidth path config first g
         ++ concat children
         ++ flat_map
              (binaryUsage wWidth (target path)
                 (pathName (prefix (env config)) (commands path)) config)
              (binarySubCmds (target path) config)
         ++ help
         ++ flat_map
              (topicUsage wWidth
                 (pathName (prefix (env config)) (commands path)) config)
              (Topics (target path)).
Proof.
  destruct fuel as [|fuel']; [discriminate|]. cbn [usageAll].
  destruct (mapM _ (Children (target path))) as [children|] eqn:Hchildren;
    [|discriminate].
  cbn [mbind option_bind].
  destruct (if first && needsHelpChild (target path) then _ else _)
    as [help|] eqn:Hhelp; [|discriminate].
  cbn [mbind option_bind]. intros [= <-].
  exists fuel', children, help. repeat split; assumption.
Qed.

(** X9.  The registry of global flags shows in a full dump through the
    usage of the first command only: a dump that is not a first call is the
    same for any two registries, and two first calls differ in the usage of
    the command they start from and in nothing after it. *)
Theorem dump_shows_globals_once (fuel : nat) (wWidth : Z) (path : Path)
    (config : helpConfig) (g g' : Globals) :
  usageAll fuel wWidth path config false g
  = usageAll fuel wWidth path config false g'
  /\ forall ops,
       usageAll fuel wWidth path config true g = Some ops ->
       exists rest,
         ops = usage wWidth path config true g ++ rest
         /\ usageAll fuel wWidth path config true g'
            = Some (usage wWidth path config true g' ++ rest).
Proof.
  split; [apply usageAll_later_call_globals|].
  intros ops Hops.
  destruct (usageAll_parts _ _ _ _ _ _ _ Hops)
    as (fuel' & children & help & -> & Hchildren & Hhelp & ->).
  eexists. split; [reflexivity|].
  cbn [usageAll].
  rewrite (mapM_ext _
             (fun child => usageAll fuel' wWidth (extend path child) config false g))
    by (intros child; apply usageAll_later_call_globals).
  rewrite Hchildren. cbn [mbind option_bind].
  rewrite (usageAll_later_call_globals wWidth config g' g fuel'
             (extend path (newCommand path config))).
  rewrite Hhelp. reflexivity.
Qed.

Lemma dump_of_child {A} (f : A -> option (list WOp)) (l : list A)
    (k : list (list WOp)) (x : A) :
  mapM f l = Some k -> In x l ->
  exists y pre post, f x = Some y /\ concat k = pre ++ y ++ post.
Proof.
  intros Hm. apply mapM_Some_1 in Hm.
  induction Hm as [|a y l k Hy _ IH]; intros Hin; [contradiction|].
  destruct Hin as [-> | Hin].
  - exists y, [], (concat k). split; [exact Hy|reflexivity].
  - destruct (IH Hin) as (y' & pre & post & Hy' & Hk).
    exists y', (y ++ pre), post. split; [exact Hy'|].
    simpl. rewrite Hk, <- app_assoc. reflexivity.
Qed.

Lemma inside_inside {A} (a mid b c x d : list A) :
  mid = c ++ x ++ d -> a ++ mid ++ b = (a ++ c) ++ x ++ (d ++ b).
Proof. intros ->. now rewrite <- !app_assoc. Qed.

Lemma inside_last {A} (a b c d pre x post : list A) :
  a ++ b ++ c ++ d ++ (pre ++ x ++ post)
  = (a ++ b ++ c ++ d ++ pre) ++ x ++ post.
Proof. now rewrite <- !app_assoc. Qed.

(** The dump of a path below the start of a dump lies inside that dump. *)
Lemma dump_holds_dump_below (wWidth : Z) (config : helpConfig) (g : Globals)
    (path p : Path) :
  descends path p ->
  forall fuel first ops,
    usageAll fuel wWidth path config first g = Some ops ->
    exists fuel' below pre post,
      usageAll fuel' wWidth p config false g = Some below
      /\ ops = pre ++ below ++ post.
Proof.
  induction 1 as [child Hin | mid child Hmid IH Hin]; intros fuel first ops Hops.
  - destruct (usageAll_parts _ _ _ _ _ _ _ Hops)
      as (fuel' & children & help & -> & Hchildren & _ & ->).
    destruct (dump_of_child _ _ _ _ Hchildren Hin)
      as (below & pre & post & Hbelow & Hcat).
    exists fuel', below. eexists _, _.
    split; [exact Hbelow|]. apply inside_inside. exact Hcat.
  - destruct (IH fuel first ops Hops) as (fuel1 & ops1 & pre1 & post1 & H1 & ->).
    destruct (usageAll_parts _ _ _ _ _ _ _ H1)
      as (fuel' & children & help & -> & Hchildren & _ & ->).
    destruct (dump_of_child _ _ _ _ Hchildren Hin)
      as (below & pre & post & Hbelow & Hcat).
    exists fuel', below. eexists _, _.
    split; [exact Hbelow|]. apply inside_inside. apply inside_inside.
    exact Hcat.
Qed.

(** X10.  A dump that succeeds holds the usage of every command below the
    one it starts from, rendered as a later call. *)
Theorem dump_covers_every_command (fuel : nat) (wWidth : Z) (path p : Path)
    (config : helpConfig) (first : bool) (g : Globals) (ops : list WOp) :
  usageAll fuel wWidth path config first g = Some ops ->
  descends path p ->
  exists pre post, ops = pre ++ usage wWidth p config false g ++ post.
Proof.
  intros Hops Hp.
  destruct (dump_holds_dump_below wWidth config g path p Hp fuel first ops Hops)
    as (fuel' & below & pre & post & Hbelow & ->).
  destruct (usageAll_parts _ _ _ _ _ _ _ Hbelow)
    as (fuel1 & children & help & _ & _ & _ & ->).
  exists pre. eexists. rewrite <- app_assoc. reflexivity.
Qed.

Lemma topic_inside (wWidth : Z) (cmdPath : string) (config : helpConfig)
    (topics : list Topic.t) (topic : Topic.t) :
  In topic topics ->
  exists pre post,
    flat_map (topicUsage wWidth cmdPath config) topics
    = pre ++ topicUsage wWidth cmdPath config topic ++ post.
Proof.
  induction topics as [|t ts IH]; intros Hin; [contradiction|].
  destruct Hin as [-> | Hin].
  - exists [], (flat_map (topicUsage wWidth cmdPath config) ts). reflexivity.
  - destruct (IH Hin) as (pre & post & Heq).
    exists (topicUsage wWidth cmdPath config t ++ pre), post.
    cbn [flat_map]. rewrite Heq, <- app_assoc. reflexivity.
Qed.

(** X11.  A dump that succeeds holds the section of every topic of the
    command it starts from and of every command below it, and so the long
    text of that topic. *)
Theorem dump_covers_every_topic (fuel : nat) (wWidth : Z) (path p : Path)
    (config : helpConfig) (first : bool) (g : Globals) (ops : list WOp)
    (topic : Topic.t) :
  usageAll fuel wWidth path config first g = Some ops ->
  p = path \/ descends path p ->
  In topic (Topics (target p)) ->
  (exists pre post,
     ops = pre
           ++ topicUsage wWidth (pathName (prefix (env config)) (commands p))
                config topic
           ++ post)
  /\ In (Write (Topic.Long topic +:+ nl)) ops.
Proof.
  intros Hops Hp Hin.
  assert (Hinside : exists pre post,
             ops = pre
                   ++ topicUsage wWidth
                        (pathName (prefix (env config)) (commands p)) config topic
                   ++ post).
  { assert (Hown : forall fuel0 first0 ops0,
               usageAll fuel0 wWidth p config first0 g = Some ops0 ->
               exists pre post,
                 ops0 = pre
                        ++ topicUsage wWidth
                             (pathName (prefix (env config)) (commands p))
                             config topic
                        ++ post).
    { intros fuel0 first0 ops0 H0.
      destruct (usageAll_parts _ _ _ _ _ _ _ H0)
        as (fuel1 & children & help & _ & _ & _ & ->).
      destruct (topic_inside wWidth
                  (pathName (prefix (env config)) (commands p)) config
                  (Topics (target p)) topic Hin) as (pre & post & ->).
      eexists _, _. apply inside_last. }
    destruct Hp as [-> | Hp]; [now apply (Hown fuel first)|].
    destruct (dump_holds_dump_below wWidth config g path p Hp fuel first ops Hops)
      as (fuel' & below & pre & post & Hbelow & ->).
    destruct (Hown _ _ _ Hbelow) as (pre' & post' & ->).
    exists (pre ++ pre'), (post' ++ post). rewrite <- !app_assoc. reflexivity. }
  split; [exact Hinside|].
  destruct Hinside as (pre & post & ->).
  apply in_or_app. right. apply in_or_app. left.
  unfold topicUsage. apply in_or_app. right. right. left. reflexivity.
Qed.



End DumpFacts.

Section RunFacts.

Context `{Host}.

(** X12.  Segments that name built-in children one below the other are
    consumed one by one: [runHelp] on them and more segments is [runHelp]
    on the segments that are left at the path they lead to, and with none
    left it writes the usage of the command at that path. *)
Theorem runHelp_follows_children (fuel : nat) (wWidth : Z)
    (names rest : list string) (path p : Path) (config : helpConfig)
    (g : Globals) :
  walk path names = Some p ->
  runHelp fuel wWidth (names ++ rest) path config g
  = runHelp fuel wWidth rest p config g
  /\ runHelp fuel wWidth names path config g
     = Some (map OnWriter (usage wWidth p config (firstCall (env config)) g),
             None).
Proof.
  assert (Hgen : forall rest0 path0,
             walk path0 names = Some p ->
             runHelp fuel wWidth (names ++ rest0) path0 config g
             = runHelp fuel wWidth rest0 p config g).
  { induction names as [|name names IH]; intros rest0 path0 Hwalk.
    - injection Hwalk as ->. reflexivity.
    - cbn [walk] in Hwalk. cbn [app runHelp].
      destruct (String.eqb name "..."); [discriminate|].
      destruct (List.find _ (Children (target path0))) as [child|];
        [|discriminate].
      now apply IH. }
  intros Hwalk. split; [now apply Hgen|].
  rewrite <- (app_nil_r names) at 1. rewrite (Hgen [] path Hwalk).
  reflexivity.
Qed.

Lemma all_on_writer (ops : list WOp) :
  forallb onWriter (map OnWriter ops) = true.
Proof. induction ops as [|op ops IH]; simpl; auto. Qed.

Lemma all_from_child (chunks : list (Stream * string)) :
  forallb fromChild (map (fun c => FromChild (fst c) (snd c)) chunks) = true.
Proof. induction chunks as [|c chunks IH]; simpl; auto. Qed.

(** X13.  A run of [runHelp] does one of three things and never mixes
    them: it writes on its writer and returns no error, or it hands over to
    a binary and all that happens is what the binary writes, or its outcome
    is that of a call of [usageErrorf]. *)
Theorem runHelp_one_kind_of_event (fuel : nat) (wWidth : Z)
    (args : list string) (path : Path) (config : helpConfig) (g : Globals)
    (events : list Event) (err : option error) :
  runHelp fuel wWidth args path config g = Some (events, err) ->
  (forallb onWriter events = true /\ err = None)
  \/ forallb fromChild events = true
  \/ (exists fn msg, (events, err) = usageErrorf fn msg).
Proof.
  revert path. induction args as [|subName subArgs IH]; intros path.
  - cbn [runHelp]. intros [= <- <-]. left. split; [apply all_on_writer|reflexivity].
  - cbn [runHelp].
    destruct (String.eqb subName "...").
    { destruct (usageAll fuel wWidth path config (firstCall (env config)) g)
        as [ops|]; [|discriminate].
      cbn [mbind option_bind]. intros [= <- <-]. left.
      split; [apply all_on_writer|reflexivity]. }
    destruct (List.find _ (Children (target path))) as [child|]; [apply IH|].
    destruct (String.eqb helpName subName); [apply IH|].
    destruct (LookPath (target path) && lookPath _ _).
    { intros [= <- <-]. right. left. apply all_from_child. }
    destruct (List.find _ (Topics (target path))) as [topic|].
    { intros [= <- <-]. left. split; reflexivity. }
    intros [= <- <-]. right. right. eexists _, _. reflexivity.
Qed.

(** X14.  The help command run without an argument writes on its writer
    what the usage function of the same path writes on its own: the usage
    of the last command, then a flush.  With any arguments the last thing
    a run does is that flush of its writer, also when [runHelp] fails. *)
Theorem help_without_args_is_usageFunc (fuel : nat) (path : Path)
    (config : helpConfig) (args : list string) (g : Globals) :
  helpRunnerRun fuel path config [] g
  = Some (map OnWriter (usageFunc path config g), None)
  /\ forall events err,
       helpRunnerRun fuel path config args g = Some (events, err) ->
       exists before,
         runHelp fuel (width config) args path config g = Some (before, err)
         /\ events = before ++ [OnWriter Flush].
Proof.
  split.
  - unfold helpRunnerRun, usageFunc. cbn [runHelp mbind option_bind fst snd].
    now rewrite map_app.
  - intros events err. unfold helpRunnerRun.
    destruct (runHelp fuel (width config) args path config g) as [[before e]|];
      [|discriminate].
    cbn [mbind option_bind fst snd]. intros [= <- <-].
    exists before. split; reflexivity.
Qed.

Lemma append_assoc (a b c : string) : (a +:+ b) +:+ c = a +:+ b +:+ c.
Proof.
  induction a as [|x a IH]; [reflexivity|].
  exact (f_equal (String x) IH).
Qed.

Lemma prefix_append (p s : string) : String.prefix p (p +:+ s) = true.
Proof.
  induction p as [|c p IH]; simpl; [now destruct s|].
  destruct (ascii_dec c c) as [_|Hne]; [exact IH|congruence].
Qed.

Lemma drop_append (p s : string) : drop (String.length p) (p +:+ s) = s.
Proof. induction p as [|c p IH]; simpl; [now destruct s|exact IH]. Qed.

Lemma append_drop (p s : string) :
  String.prefix p s = true -> p +:+ drop (String.length p) s = s.
Proof.
  revert s. induction p as [|c p IH]; intros s; simpl.
  - intros _. now destruct s.
  - destruct s as [|d s]; simpl; [discriminate|].
    destruct (ascii_dec c d) as [->|]; [|discriminate].
    intros Hp. exact (f_equal (String d) (IH s Hp)).
Qed.

(** X15.  The name shown in the table for a binary and the name
    [runHelp] looks for are inverse to each other: the binary that
    [runHelp] looks for on the segment [sub] is listed as [sub], and a
    binary whose name starts with the name of the command and a dash is
    found again from the name it is listed under.  A binary whose name does
    not start so is listed under its whole name. *)
Theorem shown_name_round_trip (cmd : Command) (sub subCmd : string) :
  shownName cmd (Name cmd +:+ "-" +:+ sub) = sub
  /\ (HasPrefix subCmd (Name cmd +:+ "-") = true ->
      Name cmd +:+ "-" +:+ shownName cmd subCmd = subCmd)
  /\ (HasPrefix subCmd (Name cmd +:+ "-") = false ->
      shownName cmd subCmd = subCmd).
Proof.
  unfold shownName, TrimPrefix, HasPrefix. split; [|split].
  - rewrite <- append_assoc, prefix_append, drop_append. reflexivity.
  - intros Hp. rewrite Hp, <- append_assoc. now apply append_drop.
  - intros Hp. now rewrite Hp.
Qed.

Lemma longest_ge (names : list string) (name : string) :
  In name names -> len name <= longest names.
Proof.
  induction names as [|n names IH]; intros Hin; [contradiction|].
  simpl. destruct Hin as [-> | Hin]; [lia|]. specialize (IH Hin). lia.
Qed.

Lemma runeCount_ascii (fuel : nat) (s : string) :
  isASCII s = true -> (String.length s <= fuel)%nat ->
  Utf8.runeCount fuel s = String.length s.
Proof.
  revert s. induction fuel as [|fuel IH]; intros s Hs Hlen.
  - destruct s; [reflexivity|simpl in Hlen; lia].
  - destruct s as [|c s]; [reflexivity|]. simpl in Hs, Hlen.
    apply andb_prop in Hs. destruct Hs as [Hc Hs].
    cbn [Utf8.runeCount]. rewrite decode_ascii by (now apply Z.ltb_lt).
    cbn [snd drop String.length]. f_equal. apply IH; [exact Hs|lia].
Qed.

Lemma padRight_ascii (w : Z) (s : string) :
  isASCII s = true -> len s <= w -> len (padRight w s) = w.
Proof.
  intros Hs Hlen. unfold padRight, len in *.
  rewrite append_length, Repeat_length. unfold Utf8.RuneCountInString.
  rewrite runeCount_ascii by (auto; lia). simpl String.length. lia.
Qed.

(** X16.  In the table of sub-commands and in the table of topics, a name
    of ASCII bytes is padded to the name width of its table, so that the
    descriptions of such rows start in one column. *)
Theorem ascii_names_fill_the_column (cmd : Command) (config : helpConfig)
    (name : string) :
  isASCII name = true ->
  (In name (map Name (Children cmd)
            ++ map (shownName cmd) (binarySubCmds cmd config)) ->
   len (padRight (commandNameWidth cmd (binarySubCmds cmd config)) name)
   = commandNameWidth cmd (binarySubCmds cmd config))
  /\ (In name (map Topic.Name (Topics cmd)) ->
      len (padRight (topicNameWidth cmd) name) = topicNameWidth cmd).
Proof.
  intros Hascii. split; intros Hin; apply padRight_ascii; try exact Hascii.
  - rewrite commandNameWidth_max. apply in_app_or in Hin.
    destruct Hin as [Hin | Hin]; apply longest_ge in Hin; lia.
  - unfold topicNameWidth.
    rewrite (widen_fold Topic.Name (Topics cmd) minNameWidth)
      by (unfold minNameWidth; lia).
    apply longest_ge in Hin. lia.
Qed.

End RunFacts.

(** ** Properties of the documentation generator *)

Section GendocFacts.

Lemma prefix_refl (p : string) : String.prefix p p = true.
Proof.
  induction p as [|c p IH]; simpl; [reflexivity|].
  destruct (ascii_dec c c) as [_|Hne]; [exact IH|congruence].
Qed.

Lemma Split_not_nil (s : string) (sep : ascii) : Split s sep <> [].
Proof.
  destruct s as [|c s]; simpl; [discriminate|].
  destruct (Ascii.eqb c sep); [discriminate|].
  destruct (Split s sep); discriminate.
Qed.

Lemma Join_cons (x : string) (l : list string) (sep : string) :
  l <> [] -> Join (x :: l) sep = x +:+ sep +:+ Join l sep.
Proof. destruct l; [congruence|reflexivity]. Qed.

Lemma Join_Split (s : string) (sep : ascii) :
  Join (Split s sep) (String sep EmptyString) = s.
Proof.
  induction s as [|c s IH]; [reflexivity|]. cbn [Split].
  destruct (Ascii.eqb_spec c sep) as [->|Hne].
  - rewrite Join_cons by apply Split_not_nil. now rewrite IH.
  - pose proof (Split_not_nil s sep) as Hnil.
    destruct (Split s sep) as [|h t]; [congruence|].
    destruct t as [|h' t].
    + simpl in *. now rewrite IH.
    + rewrite Join_cons by discriminate.
      rewrite Join_cons in IH by discriminate.
      exact (f_equal (String c) IH).
Qed.

Lemma Split_no_sep (s : string) (sep : ascii) :
  hasByte sep s = false -> Split s sep = [s].
Proof.
  induction s as [|c s IH]; [reflexivity|]. simpl.
  intros Hs. apply orb_false_elim in Hs. destruct Hs as [Hc Hs].
  rewrite Hc, (IH Hs). reflexivity.
Qed.

Lemma Split_append (a b : string) (sep : ascii) :
  hasByte sep a = false ->
  Split (a +:+ String sep b) sep = a :: Split b sep.
Proof.
  induction a as [|c a IH]; intros Ha.
  - change (EmptyString +:+ String sep b) with (String sep b).
    cbn [Split]. now rewrite Ascii.eqb_refl.
  - simpl in Ha. apply orb_false_elim in Ha. destruct Ha as [Hc Ha].
    change (String c a +:+ String sep b) with (String c (a +:+ String sep b)).
    cbn [Split]. rewrite Hc, (IH Ha). reflexivity.
Qed.

Lemma Split_Join (l : list string) (sep : ascii) :
  l <> [] -> Forall (fun x => hasByte sep x = false) l ->
  Split (Join l (String sep EmptyString)) sep = l.
Proof.
  intros Hnil Hall. induction Hall as [|x l Hx Hall IH]; [congruence|].
  destruct l as [|y l].
  - simpl. now apply Split_no_sep.
  - rewrite Join_cons by discriminate.
    change (x +:+ String sep EmptyString +:+ Join (y :: l) (String sep EmptyString))
      with (x +:+ String sep (Join (y :: l) (String sep EmptyString))).
    rewrite Split_append by exact Hx.
    rewrite IH by discriminate. reflexivity.
Qed.

Lemma Split_lines_clean (s : string) (sep : ascii) :
  Forall (fun x => hasByte sep x = false) (Split s sep).
Proof.
  induction s as [|c s IH]; [repeat constructor|]. cbn [Split].
  destruct (Ascii.eqb c sep) eqn:Hc; [now constructor|].
  pose proof (Split_not_nil s sep) as Hnil.
  destruct (Split s sep) as [|h t]; [congruence|].
  inversion IH as [|? ? Hh Ht]; subst.
  constructor; [|exact Ht]. simpl. now rewrite Hc, Hh.
Qed.

Lemma suppressLine_clean (line : string) :
  hasByte (ascii_of_nat 10) line = false ->
  hasByte (ascii_of_nat 10) (suppressLine line) = false.
Proof. intros Hl. unfold suppressLine. now destruct (isParallelLine line). Qed.

Lemma suppressLine_done (line : string) :
  isParallelLine (suppressLine line) = false.
Proof.
  unfold suppressLine. destruct (isParallelLine line) eqn:Hl;
    [reflexivity|exact Hl].
Qed.

Lemma suppressLine_twice (line : string) :
  suppressLine (suppressLine line) = suppressLine line.
Proof.
  unfold suppressLine at 1. now rewrite suppressLine_done.
Qed.

Lemma suppressed_lines (input : string) :
  Split (suppressParallelFlag input) (ascii_of_nat 10)
  = map suppressLine (Split input (ascii_of_nat 10)).
Proof.
  unfold suppressParallelFlag. apply Split_Join.
  - pose proof (Split_not_nil input (ascii_of_nat 10)).
    destruct (Split input (ascii_of_nat 10)); [congruence|discriminate].
  - apply List.Forall_map.
    eapply List.Forall_impl; [|apply Split_lines_clean].
    intros line. apply suppressLine_clean.
Qed.

(** X17.  [suppressParallelFlag] works line by line: the lines of its
    result are the lines of its input with each line of the form
    [ -test.parallel=] and digits replaced, so the result has as many lines
    and none of that form, and an input without such a line is returned as
    it is. *)
Theorem suppressParallelFlag_lines (input : string) :
  Split (suppressParallelFlag input) (ascii_of_nat 10)
  = map suppressLine (Split input (ascii_of_nat 10))
  /\ Forall (fun line => isParallelLine line = false)
       (Split (suppressParallelFlag input) (ascii_of_nat 10))
  /\ (Forall (fun line => isParallelLine line = false)
        (Split input (ascii_of_nat 10)) ->
      suppressParallelFlag input = input).
Proof.
  split; [apply suppressed_lines|]. split.
  - rewrite suppressed_lines. apply List.Forall_map.
    apply List.Forall_forall. intros line _. apply suppressLine_done.
  - intros Hnone. unfold suppressParallelFlag.
    assert (Hmap : map suppressLine (Split input (ascii_of_nat 10))
                   = Split input (ascii_of_nat 10)).
    { induction Hnone as [|line lines Hline _ IH]; [reflexivity|].
      simpl. rewrite IH. unfold suppressLine. now rewrite Hline. }
    rewrite Hmap. apply (Join_Split input (ascii_of_nat 10)).
Qed.

(** X18.  [suppressParallelFlag] applied to its own result changes
    nothing. *)
Theorem suppressParallelFlag_idempotent (input : string) :
  suppressParallelFlag (suppressParallelFlag input)
  = suppressParallelFlag input.
Proof.
  unfold suppressParallelFlag at 1. rewrite suppressed_lines.
  rewrite map_map.
  rewrite (map_ext _ suppressLine) by (intros line; apply suppressLine_twice).
  reflexivity.
Qed.

Lemma cutAll_shorter (old s : string) (skip : nat) :
  (String.length (cutAll skip old s) <= String.length s)%nat.
Proof.
  revert skip. induction s as [|c s IH]; intros skip; [simpl; lia|].
  cbn [cutAll]. destruct skip as [|k].
  - destruct (String.prefix old (String c s)).
    + specialize (IH (String.length old - 1)%nat). simpl. lia.
    + specialize (IH O). simpl. lia.
  - specialize (IH k). simpl. lia.
Qed.

Lemma cutAll_absent (old s : string) :
  Contains s old = false -> cutAll O old s = s.
Proof.
  induction s as [|c s IH]; [reflexivity|].
  cbn [Contains cutAll]. intros Hc.
  apply orb_false_elim in Hc. destruct Hc as [Hp Hc].
  rewrite Hp, (IH Hc). reflexivity.
Qed.

(** X19.  [postProcess] never makes the text of [suppressParallelFlag]
    longer; it returns that text as it is when the flag is not set, and
    also when the flag is set and the directory followed by the separator
    does not occur in it. *)
Theorem postProcess_only_cuts (Separator : string) (postProcessFlag : bool)
    (tmpDir body : string) :
  (String.length (postProcess Separator postProcessFlag tmpDir body)
   <= String.length (suppressParallelFlag body))%nat
  /\ postProcess Separator false tmpDir body = suppressParallelFlag body
  /\ (Contains (suppressParallelFlag body) (tmpDir +:+ Separator) = false ->
      postProcess Separator true tmpDir body = suppressParallelFlag body).
Proof.
  split; [|split].
  - unfold postProcess, removeAll. destruct postProcessFlag; simpl; [|lia].
    destruct (String.eqb _ _); [lia|apply cutAll_shorter].
  - reflexivity.
  - intros Habsent. unfold postProcess, removeAll. simpl.
    destruct (String.eqb _ _); [reflexivity|now apply cutAll_absent].
Qed.

Lemma environ_loop (sep binDir : string) (input : list string) :
  forall out updated,
    fold_left (environStep sep binDir) input (out, updated)
    = (out
       ++ map (fun e =>
                 if setsPath e
                 then "PATH=" +:+ binDir +:+ sep +:+ drop 5 e else e)
            (List.filter (fun e => negb (String.eqb e "")) input),
       updated
       || existsb setsPath (List.filter (fun e => negb (String.eqb e "")) input)).
Proof.
  induction input as [|e input IH]; intros out updated.
  - simpl. now rewrite app_nil_r, orb_false_r.
  - cbn [fold_left List.filter]. unfold environStep at 2.
    destruct (String.eqb e "") eqn:He; cbn [negb].
    + apply IH.
    + unfold setsPath at 1. cbn [map existsb].
      destruct (HasPrefix e "PATH=") eqn:Hp; cbn [fst snd]; rewrite IH.
      * unfold setsPath at 3. rewrite Hp, <- app_assoc.
        now rewrite orb_true_r.
      * unfold setsPath at 3. rewrite Hp, <- app_assoc. reflexivity.
Qed.

Lemma path_entry_starts (sep binDir rest : string) :
  HasPrefix ("PATH=" +:+ binDir +:+ sep +:+ rest) ("PATH=" +:+ binDir) = true.
Proof.
  unfold HasPrefix.
  change ("PATH=" +:+ binDir +:+ sep +:+ rest)
    with ("PATH=" +:+ (binDir +:+ (sep +:+ rest))).
  rewrite <- append_assoc. apply prefix_append.
Qed.

(** X20.  Every entry of the result of [runEnviron] that sets [PATH] puts
    the directory of the binaries first, and there is such an entry. *)
Theorem runEnviron_puts_binDir_first (flagEnv : string)
    (osEnviron : list string) (PathListSeparator binDir : string) :
  Forall
    (fun e => setsPath e = true -> HasPrefix e ("PATH=" +:+ binDir) = true)
    (runEnviron flagEnv osEnviron PathListSeparator binDir)
  /\ Exists (fun e => HasPrefix e ("PATH=" +:+ binDir) = true)
       (runEnviron flagEnv osEnviron PathListSeparator binDir).
Proof.
  unfold runEnviron. fold (environInput flagEnv osEnviron).
  rewrite environ_loop. cbn [fst snd app orb].
  set (kept := List.filter (fun e => negb (String.eqb e ""))
                 (environInput flagEnv osEnviron)).
  assert (Hown : HasPrefix ("PATH=" +:+ binDir) ("PATH=" +:+ binDir) = true)
    by apply prefix_refl.
  assert (Hkept : Forall
                    (fun e => setsPath e = true ->
                              HasPrefix e ("PATH=" +:+ binDir) = true)
                    (map (fun e =>
                            if setsPath e
                            then "PATH=" +:+ binDir +:+ PathListSeparator
                                 +:+ drop 5 e
                            else e) kept)).
  { apply List.Forall_map. apply List.Forall_forall. intros e _.
    destruct (setsPath e) eqn:He; [|congruence].
    intros _. apply path_entry_starts. }
  split.
  - apply Forall_app. split.
    + destruct (existsb setsPath kept); cbn [negb]; [exact Hkept|].
      apply Forall_app. split; [exact Hkept|]. now repeat constructor.
    + repeat constructor. discriminate.
  - apply Exists_app. left.
    destruct (existsb setsPath kept) eqn:Hex; cbn [negb].
    + apply existsb_exists in Hex. destruct Hex as (e & Hin & He).
      apply List.Exists_exists.
      exists ("PATH=" +:+ binDir +:+ PathListSeparator +:+ drop 5 e).
      split; [|apply path_entry_starts].
      apply in_map_iff. exists e. now rewrite He.
    + apply Exists_app. right. now constructor.
Qed.

Lemma rewritten_sets_path (sep binDir e : string) :
  setsPath (if setsPath e then "PATH=" +:+ binDir +:+ sep +:+ drop 5 e else e)
  = setsPath e.
Proof.
  destruct (setsPath e) eqn:He; [|exact He].
  apply (prefix_append "PATH=").
Qed.

Lemma others_kept (sep binDir : string) (kept : list string) :
  List.filter (fun e => negb (setsPath e))
    (map (fun e =>
            if setsPath e then "PATH=" +:+ binDir +:+ sep +:+ drop 5 e else e)
       kept)
  = List.filter (fun e => negb (setsPath e)) kept.
Proof.
  induction kept as [|e kept IH]; [reflexivity|].
  cbn [map List.filter]. rewrite rewritten_sets_path, IH.
  now destruct (setsPath e) eqn:He.
Qed.

(** X21.  [runEnviron] keeps the entries that do not set [PATH], in their
    order and without the empty ones, puts [CMDLINE_STYLE=godoc] after
    them, and returns no empty entry. *)
Theorem runEnviron_keeps_other_entries (flagEnv : string)
    (osEnviron : list string) (PathListSeparator binDir : string) :
  List.filter (fun e => negb (setsPath e))
    (runEnviron flagEnv osEnviron PathListSeparator binDir)
  = List.filter (fun e => negb (setsPath e))
      (List.filter (fun e => negb (String.eqb e ""))
         (environInput flagEnv osEnviron))
    ++ ["CMDLINE_STYLE=godoc"]
  /\ Forall (fun e => e <> EmptyString)
       (runEnviron flagEnv osEnviron PathListSeparator binDir).
Proof.
  unfold runEnviron. fold (environInput flagEnv osEnviron).
  rewrite environ_loop. cbn [fst snd app orb].
  set (kept := List.filter (fun e => negb (String.eqb e ""))
                 (environInput flagEnv osEnviron)).
  split.
  - assert (Hpath : setsPath ("PATH=" +:+ binDir) = true)
      by apply (prefix_append "PATH=").
    rewrite List.filter_app. f_equal.
    destruct (existsb setsPath kept); cbn [negb]; [apply others_kept|].
    rewrite List.filter_app, others_kept. cbn [List.filter].
    rewrite Hpath. cbn [negb]. apply app_nil_r.
  - assert (Hkept : Forall (fun e => e <> EmptyString)
                      (map (fun e =>
                              if setsPath e
                              then "PATH=" +:+ binDir +:+ PathListSeparator
                                   +:+ drop 5 e
                              else e) kept)).
    { apply List.Forall_map. apply List.Forall_forall. intros e Hin.
      destruct (setsPath e); [discriminate|].
      apply List.filter_In in Hin. destruct Hin as [_ He].
      intros ->. discriminate. }
    apply Forall_app. split; [|repeat constructor; discriminate].
    destruct (existsb setsPath kept); cbn [negb]; [exact Hkept|].
    apply Forall_app. split; [exact Hkept|]. repeat constructor. discriminate.
Qed.

End GendocFacts.

(** ** Runs of the further properties *)

Lemma firstRuneToUpper_ascii_start_witness :
  startsASCII "help me" = true
  /\ @firstRuneToUpper demoHost (@firstRuneToUpper demoHost "help me")
     = @firstRuneToUpper demoHost "help me".
Proof.
  split; [reflexivity|].
  exact (proj2 (proj2 (proj2
           (@firstRuneToUpper_ascii_start demoHost "help me" eq_refl)))).
Defined.

Lemma godocHeader_starts_with_path_witness :
  startsASCII "foo bar" = true
  /\ (@godocHeader demoHost "foo bar" "does, a thing"
      = @firstRuneToUpper demoHost "foo bar"
      \/ @godocHeader demoHost "foo bar" "does, a thing"
         = @firstRuneToUpper demoHost "foo bar" +:+ " - " +:+ "does, a thing").
Proof.
  split; [reflexivity|].
  exact (@godocHeader_starts_with_path demoHost "foo bar" "does, a thing"
           eq_refl).
Defined.

Lemma lineBreak_rule_width_witness :
  0 <= @defaultWidth demoHost
  /\ exists rule,
       @lineBreak demoHost (-1) styleFull = [Flush; Write (rule +:+ nl); Flush]
       /\ len rule = 80.
Proof.
  assert (Hdef : 0 <= @defaultWidth demoHost) by (simpl; lia).
  split; [exact Hdef|].
  destruct (@lineBreak_rule_width demoHost (-1) styleFull
              (or_intror eq_refl) Hdef) as (rule & Hbreak & Hlen & _).
  exists rule. split; [exact Hbreak|exact Hlen].
Defined.

Lemma shown_flag_stays_shown_witness :
  @nonHiddenGlobalFlags demoHost (@mkGlobals demoHost [] (Some ["log"]))
  <> None
  /\ @matchRegexps demoHost (Some ["log"]) "logfile" = true
  /\ @matchRegexps demoHost
       (@nonHiddenGlobalFlags demoHost
          (@HideGlobalFlagsExcept demoHost ["trace"]
             (@mkGlobals demoHost [] (Some ["log"]))))
       "logfile" = true.
Proof.
  assert (Hnil : @nonHiddenGlobalFlags demoHost
                   (@mkGlobals demoHost [] (Some ["log"])) <> None)
    by discriminate.
  assert (Hshown : @matchRegexps demoHost
                     (@nonHiddenGlobalFlags demoHost
                        (@mkGlobals demoHost [] (Some ["log"])))
                     "logfile" = true) by reflexivity.
  split; [exact Hnil|]. split; [exact Hshown|].
  exact (@shown_flag_stays_shown demoHost ["trace"]
           (@mkGlobals demoHost [] (Some ["log"])) "logfile" Hnil Hshown).
Defined.

Lemma godoc_ignores_flag_values_witness :
  Forall2 sameButValue demoLogHere demoLogThere
  /\ @flagsUsage demoHost demoPath (mkConfig (mkEnv ∅) styleGoDoc 80) true
       (@mkGlobals demoHost demoLogHere None)
     = @flagsUsage demoHost demoPath (mkConfig (mkEnv ∅) styleGoDoc 80) true
         (@mkGlobals demoHost demoLogThere None).
Proof.
  assert (Hsame : Forall2 sameButValue demoLogHere demoLogThere)
    by (repeat constructor).
  split; [exact Hsame|].
  exact (@godoc_ignores_flag_values demoHost demoPath (mkEnv ∅) 80 true
           demoLogHere demoLogThere None Hsame).
Defined.

Lemma dump_covers_every_command_witness :
  descends demoPath demoBuildPath
  /\ exists ops pre post,
       @usageAll demoHost 3 80 demoPath demoCompact true demoGlobals = Some ops
       /\ ops = pre
                ++ @usage demoHost 80 demoBuildPath demoCompact false demoGlobals
                ++ post.
Proof.
  assert (Hbelow : descends demoPath demoBuildPath)
    by (apply descends_child; left; reflexivity).
  split; [exact Hbelow|].
  destruct (@usageAll demoHost 3 80 demoPath demoCompact true demoGlobals)
    as [ops|] eqn:Hops; [|vm_compute in Hops; discriminate].
  destruct (@dump_covers_every_command demoHost 3 80 demoPath demoBuildPath
              demoCompact true demoGlobals ops Hops Hbelow)
    as (pre & post & Heq).
  exists ops, pre, post. split; [reflexivity|exact Heq].
Defined.

Lemma dump_covers_every_topic_witness :
  In demoTopic (Topics (target demoPath))
  /\ exists ops,
       @usageAll demoHost 3 80 demoPath demoCompact true demoGlobals = Some ops
       /\ In (Write ("Build files are lists." +:+ nl)) ops.
Proof.
  assert (Hin : In demoTopic (Topics (target demoPath)))
    by (left; reflexivity).
  split; [exact Hin|].
  destruct (@usageAll demoHost 3 80 demoPath demoCompact true demoGlobals)
    as [ops|] eqn:Hops; [|vm_compute in Hops; discriminate].
  exists ops. split; [reflexivity|].
  exact (proj2 (@dump_covers_every_topic demoHost 3 80 demoPath demoPath
                  demoCompact true demoGlobals ops demoTopic Hops
                  (or_introl eq_refl) Hin)).
Defined.

Lemma runHelp_follows_children_witness :
  walk demoPath ["build"] = Some demoBuildPath
  /\ @runHelp demoHost 3 80 ["build"] demoPath demoCompact demoGlobals
     = Some (map OnWriter
               (@usage demoHost 80 demoBuildPath demoCompact true demoGlobals),
             None).
Proof.
  assert (Hwalk : walk demoPath ["build"] = Some demoBuildPath) by reflexivity.
  split; [exact Hwalk|].
  exact (proj2 (@runHelp_follows_children demoHost 3 80 ["build"] []
                  demoPath demoBuildPath demoCompact demoGlobals Hwalk)).
Defined.

Lemma runHelp_one_kind_of_event_witness :
  @runHelp demoHost 3 80 ["extra"] demoPath demoCompact demoGlobals
  = Some ([FromChild Stdout ("Extra tool" +:+ nl +:+ "More about it" +:+ nl)],
          None)
  /\ ((forallb onWriter
         [FromChild Stdout ("Extra tool" +:+ nl +:+ "More about it" +:+ nl)]
       = true /\ @None error = None)
      \/ forallb fromChild
           [FromChild Stdout ("Extra tool" +:+ nl +:+ "More about it" +:+ nl)]
         = true
      \/ exists fn msg,
           ([FromChild Stdout ("Extra tool" +:+ nl +:+ "More about it" +:+ nl)],
            @None error)
           = usageErrorf fn msg).
Proof.
  assert (Hrun : @runHelp demoHost 3 80 ["extra"] demoPath demoCompact
                   demoGlobals
                 = Some ([FromChild Stdout
                            ("Extra tool" +:+ nl +:+ "More about it" +:+ nl)],
                         None)) by reflexivity.
  split; [exact Hrun|].
  exact (@runHelp_one_kind_of_event demoHost 3 80 ["extra"] demoPath
           demoCompact demoGlobals _ _ Hrun).
Defined.

Lemma ascii_names_fill_the_column_witness :
  isASCII "build" = true
  /\ In "build"
       (map Name (Children demoRoot)
        ++ map (shownName demoRoot) (@binarySubCmds demoHost demoRoot demoCompact))
  /\ len (padRight
            (commandNameWidth demoRoot
               (@binarySubCmds demoHost demoRoot demoCompact)) "build")
     = commandNameWidth demoRoot (@binarySubCmds demoHost demoRoot demoCompact).
Proof.
  assert (Hin : In "build"
                  (map Name (Children demoRoot)
                   ++ map (shownName demoRoot)
                        (@binarySubCmds demoHost demoRoot demoCompact)))
    by (left; reflexivity).
  split; [reflexivity|]. split; [exact Hin|].
  exact (proj1 (@ascii_names_fill_the_column demoHost demoRoot demoCompact
                  "build" eq_refl) Hin).
Defined.
